(** * Verification of the cohort query builder

    A shallow embedding of [cohortstore/store.py] (the [CohortStore] query
    builder) and of [etl_wrappers.py] (the upsert wrapper), with the
    properties of the specification proved over it.

    Layout:
    - [Py]: the Python built-ins the code calls ([str.lower], [str.upper],
      [in] on strings, [str.replace], [str.join], [str()], [repr()]);
    - [CohortStore]: the builder, as state passing over a record;
    - [Obj]: the builder's parameter list as a heap object, for aliasing;
    - [Etl]: the three SQL statements of [upsert_rows_from_csv], and
      [append_rows_from_csv];
    - [Wrappers]: the text and parameters of [query_cohort];
    - [Ingest]: the study columns and the view text of [ingest.py].

    Strings are sequences of ASCII characters: [str.lower] and [str.upper]
    act on the letters a-z and A-Z and leave every other character alone. *)

From Stdlib Require Import Ascii ZArith List DecimalString.
From Stdlib Require String.
From stdpp Require Import base decidable option list strings gmap sorting.

#[local] Set Warnings "-clear-no-such-hyp".

(** ** Python built-ins *)

Module Py.

(** The double-quote character, code point 34. *)
Definition dq : ascii := "034"%char.
(** The single-quote character, code point 39. *)
Definition sq : ascii := "039"%char.
Definition backslash : ascii := "092"%char.

Definition str1 (c : ascii) : string := String c EmptyString.

(** [str.lower] and [str.upper], one character at a time. *)
Definition lower_char (c : ascii) : ascii :=
  let n := nat_of_ascii c in
  if (65 <=? n) && (n <=? 90) then ascii_of_nat (n + 32) else c.

Definition upper_char (c : ascii) : ascii :=
  let n := nat_of_ascii c in
  if (97 <=? n) && (n <=? 122) then ascii_of_nat (n - 32) else c.

Fixpoint str_map (f : ascii → ascii) (s : string) : string :=
  match s with
  | EmptyString => EmptyString
  | String c s' => String (f c) (str_map f s')
  end.

Definition lower : string → string := str_map lower_char.
Definition upper : string → string := str_map upper_char.

(** [sub in s] on strings: [sub] occurs in [s] as a contiguous block. *)
Fixpoint contains (sub s : string) : bool :=
  String.prefix sub s ||
  match s with
  | EmptyString => false
  | String _ s' => contains sub s'
  end.

(** [s.replace(old, new)]: occurrences of [old] are replaced from left to
    right and do not overlap.  [skip] counts the characters of the
    occurrence just replaced that are still to be passed over. *)
Fixpoint replace_from (old new : string) (skip : nat) (s : string) : string :=
  match s with
  | EmptyString => EmptyString
  | String c s' =>
      match skip with
      | S k => replace_from old new k s'
      | O =>
          if String.prefix old s
          then new +:+ replace_from old new (String.length old - 1) s'
          else String c (replace_from old new 0 s')
      end
  end.

(** With an empty [old], Python puts [new] before every character and at
    the end. *)
Fixpoint replace_empty (new s : string) : string :=
  match s with
  | EmptyString => new
  | String c s' => new +:+ String c (replace_empty new s')
  end.

Definition replace (old new s : string) : string :=
  match old with
  | EmptyString => replace_empty new s
  | String _ _ => replace_from old new 0 s
  end.

(** [sep.join(parts)]. *)
Definition join (sep : string) (parts : list string) : string :=
  String.concat sep parts.

(** [x in xs] on a list or tuple of strings. *)
Definition str_in (x : string) (xs : list string) : bool :=
  bool_decide (x ∈ xs).

(** The values a caller passes as filter values and bound parameters:
    [None], booleans, integers, strings, tuples and lists. *)
#[local] Set Warnings "-register-all".
Inductive pyval : Type :=
| PNone
| PBool (b : bool)
| PInt (z : Z)
| PStr (s : string)
| PTuple (items : list pyval)
| PList (items : list pyval).

Definition hex_digit (n : nat) : ascii :=
  if n <? 10 then ascii_of_nat (48 + n) else ascii_of_nat (87 + n).

Definition hex2 (n : nat) : string :=
  String (hex_digit (n / 16)) (str1 (hex_digit (n mod 16))).

Fixpoint has_char (c : ascii) (s : string) : bool :=
  match s with
  | EmptyString => false
  | String d s' => bool_decide (c = d) || has_char c s'
  end.

(** [repr] of a string: single quotes, unless the string has a single
    quote and no double quote; the quote and the backslash are escaped,
    control characters are written [\t], [\n], [\r] or [\xhh].
    Characters above 127 are outside the ASCII fragment and are written
    [\xhh] as well. *)
Definition repr_quote (s : string) : ascii :=
  if has_char sq s && negb (has_char dq s) then dq else sq.

Definition repr_char (q c : ascii) : string :=
  let n := nat_of_ascii c in
  if bool_decide (c = q) || bool_decide (c = backslash)
  then String backslash (str1 c)
  else if n =? 9 then "\t"
  else if n =? 10 then "\n"
  else if n =? 13 then "\r"
  else if (n <? 32) || (127 <=? n) then "\x" +:+ hex2 n
  else str1 c.

Fixpoint repr_body (q : ascii) (s : string) : string :=
  match s with
  | EmptyString => EmptyString
  | String c s' => repr_char q c +:+ repr_body q s'
  end.

Definition repr_str (s : string) : string :=
  let q := repr_quote s in str1 q +:+ repr_body q s +:+ str1 q.

Definition str_of_Z (z : Z) : string := NilZero.string_of_int (Z.to_int z).

Fixpoint repr (v : pyval) : string :=
  match v with
  | PNone => "None"
  | PBool true => "True"
  | PBool false => "False"
  | PInt z => str_of_Z z
  | PStr s => repr_str s
  | PTuple items =>
      match items with
      | [x] => "(" +:+ repr x +:+ ",)"
      | _ => "(" +:+ join ", " (map repr items) +:+ ")"
      end
  | PList items => "[" +:+ join ", " (map repr items) +:+ "]"
  end.

(** [str(v)]: a string is itself, everything else is its [repr]. *)
Definition str (v : pyval) : string :=
  match v with
  | PStr s => s
  | _ => repr v
  end.

(** Exceptions the code raises, and the outcome of a call. *)
Inductive exn : Type :=
| ValueError (msg : string)
| RuntimeError (msg : string).

Inductive outcome (A : Type) : Type :=
| Returned (a : A)
| Raised (e : exn).
Arguments Returned {A} a.
Arguments Raised {A} e.

End Py.

(** ** The query builder of [cohortstore/store.py] *)

Module CohortStore.
Import Py.

(** [_quote_ident]: double every embedded double quote, and wrap. *)
Definition _quote_ident (name : string) : string :=
  str1 dq +:+ replace (str1 dq) (String dq (str1 dq)) name +:+ str1 dq.

(** The builder's state.  [_select_cols = None] selects every column. *)
Record store : Type := Store {
  table : string;
  _study_col : string;
  _where_parts : list string;
  _params : list pyval;
  _select_cols : option (list string)
}.

Definition _ALLOWED_OPS : list string :=
  [">"; ">="; "<"; "<="; "="; "!="; "LIKE"].

(** The tuple [_detect_study_col] iterates over. *)
Definition STUDY_CANDIDATES : list string :=
  ["Study"; "Study Name"; "study"; "StudyName"; "Study_Name"].

(** The tuple [metrics] iterates over. *)
Definition ID_CANDIDATES : list string :=
  ["Image/Patient ID"; "Patient ID"; "Image ID"; "ID"].

(** [_detect_study_col]; [cols] is what [PRAGMA table_info] returned. *)
Fixpoint first_in (cands cols : list string) : option string :=
  match cands with
  | [] => None
  | c :: rest => if str_in c cols then Some c else first_in rest cols
  end.

Definition _detect_study_col (table : string) (cols : list string)
  : outcome string :=
  match first_in STUDY_CANDIDATES cols with
  | Some c => Returned c
  | None =>
      Raised (RuntimeError
                ("No study column found in table '" +:+ table +:+ "'."))
  end.

(** [__init__]: the study column is detected once; the builder starts
    with no filter, no parameter and no column selection. *)
Definition init (table : string) (cols : list string) : outcome store :=
  match _detect_study_col table cols with
  | Returned c => Returned (Store table c [] [] None)
  | Raised e => Raised e
  end.

(** [_build_sql]. *)
Definition where_sql (parts : list string) : string :=
  match parts with
  | [] => "1=1"
  | _ :: _ => join " AND " parts
  end.

Definition select_sql (sel : option (list string)) : string :=
  match sel with
  | None => "*"
  | Some cols => join ", " (map _quote_ident cols)
  end.

Definition sql_text (tbl : string) (parts : list string)
    (sel : option (list string)) : string :=
  "SELECT " +:+ select_sql sel +:+ " FROM " +:+ _quote_ident tbl
    +:+ " WHERE " +:+ where_sql parts.

Definition _build_sql (s : store) : string * list pyval :=
  (sql_text (table s) (_where_parts s) (_select_cols s), _params s).

Definition query_sql (s : store) : string := fst (_build_sql s).

(** [reset]. *)
Definition reset (s : store) : store :=
  Store (table s) (_study_col s) [] [] None.

(** One [append] to each of the two lists. *)
Definition push (part : string) (v : pyval) (s : store) : store :=
  Store (table s) (_study_col s)
        (_where_parts s ++ [part]) (_params s ++ [v]) (_select_cols s).

(** [select_cohort]. *)
Definition select_cohort (name : string) (s : store) : store :=
  push (_quote_ident (_study_col s) +:+ " = ?") (PStr name) s.

(** [filter].  The keyword arguments arrive as a dictionary, iterated in
    the order the caller wrote them.  An exception leaves the builder as
    the loop had it when it was raised. *)
Definition unsupported_msg (op : pyval) (col : string) : string :=
  "Unsupported operator '" +:+ str op +:+ "' for column '" +:+ col
    +:+ "'. Allowed: " +:+ repr (PTuple (map PStr _ALLOWED_OPS)).

Fixpoint filter (columns : list (string * pyval)) (s : store)
  : outcome unit * store :=
  match columns with
  | [] => (Returned tt, s)
  | (col, val) :: rest =>
      let col_q := _quote_ident col in
      match val with
      | PTuple [op; v] =>
          let op_u := upper (str op) in
          if str_in op_u _ALLOWED_OPS
          then filter rest (push (col_q +:+ " " +:+ op_u +:+ " ?") v s)
          else (Raised (ValueError (unsupported_msg op col)), s)
      | _ => filter rest (push (col_q +:+ " = ?") val s)
      end
  end.

(** [metrics].  [colnames] is what [PRAGMA table_info] returns at the
    call. *)
Definition tokens (arg : option (list string)) : list string :=
  match arg with
  | Some (t :: ts) => t :: ts
  | _ => []
  end.

Definition any_token_in (toks : list string) (n : string) : bool :=
  match toks with
  | [] => true
  | _ :: _ => existsb (λ t, contains (lower t) n) toks
  end.

Definition matches (organs_list kinds_list : list string) (name : string)
  : bool :=
  let n := lower name in
  let ok_org := any_token_in organs_list n in
  let ok_kind := any_token_in kinds_list n in
  ok_org && ok_kind.

Fixpoint add_id_col (cands colnames base_cols : list string) : list string :=
  match cands with
  | [] => base_cols
  | candidate :: rest =>
      if str_in candidate colnames && negb (str_in candidate base_cols)
      then base_cols ++ [candidate]
      else add_id_col rest colnames base_cols
  end.

Fixpoint dedup_loop (cs : list string) (seen : gset string)
    (ordered : list string) : list string :=
  match cs with
  | [] => ordered
  | c :: rest =>
      if bool_decide (c ∈ seen)
      then dedup_loop rest seen ordered
      else dedup_loop rest ({[c]} ∪ seen) (ordered ++ [c])
  end.

Definition base_columns (study : string) (colnames : list string)
  : list string :=
  add_id_col ID_CANDIDATES colnames
             (if str_in study colnames then [study] else []).

Definition metrics (colnames : list string)
    (organs kinds : option (list string)) (s : store) : store :=
  let organs_list := tokens organs in
  let kinds_list := tokens kinds in
  let keep := List.filter (matches organs_list kinds_list) colnames in
  let base_cols := base_columns (_study_col s) colnames in
  let ordered := dedup_loop (base_cols ++ keep) ∅ [] in
  Store (table s) (_study_col s) (_where_parts s) (_params s) (Some ordered).

(** *** Call sequences *)

Inductive call : Type :=
| Reset
| SelectCohort (name : string)
| Filter (columns : list (string * pyval))
| Metrics (colnames : list string) (organs kinds : option (list string)).

(** A [filter] call that raises leaves the builder as it was when the
    exception was raised; the caller may carry on with it. *)
Definition step (s : store) (c : call) : store :=
  match c with
  | Reset => reset s
  | SelectCohort name => select_cohort name s
  | Filter columns => snd (filter columns s)
  | Metrics colnames organs kinds => metrics colnames organs kinds s
  end.

Definition run (cs : list call) (s : store) : store := fold_left step cs s.

(** *** Notions of the specification *)

(** What the specification says of quoting, on character lists. *)
Definition spec_doubled (cs : list ascii) : list ascii :=
  flat_map (λ c, if decide (c = dq) then [dq; dq] else [c]) cs.

(** Reading a quoted identifier back: halve every doubled quote. *)
Fixpoint undouble (cs : list ascii) : list ascii :=
  match cs with
  | [] => []
  | c :: rest =>
      if decide (c = dq)
      then match rest with
           | [] => [c]
           | _ :: rest' => c :: undouble rest'
           end
      else c :: undouble rest
  end.

(** A predicate is accepted when it is not an [(op, value)] pair, or its
    operator is an allowed one after upper-casing. *)
Definition accepted (val : pyval) : bool :=
  match val with
  | PTuple [op; _] => str_in (upper (str op)) _ALLOWED_OPS
  | _ => true
  end.

Definition accepted_call (c : call) : bool :=
  match c with
  | Filter columns => forallb (λ cv, accepted cv.2) columns
  | _ => true
  end.

(** The clause and the bound value of one predicate, as the specification
    words them: [Equals(value)] gives [quote(column) = ?], and
    [Compare(op, value)] gives [quote(column) OP ?]. *)
Definition spec_binding (cv : string * pyval) : string * pyval :=
  match cv.2 with
  | PTuple [op; v] =>
      (_quote_ident cv.1 +:+ " " +:+ upper (str op) +:+ " ?", v)
  | _ => (_quote_ident cv.1 +:+ " = ?", cv.2)
  end.

(** The builder with the clauses and values of [bs] appended. *)
Definition extend (bs : list (string * pyval)) (s : store) : store :=
  Store (table s) (_study_col s)
        (_where_parts s ++ bs.*1) (_params s ++ bs.*2) (_select_cols s).

(** The bindings a sequence of calls leaves, oldest first. *)
Fixpoint spec_bindings (study : string) (cs : list call)
    (acc : list (string * pyval)) : list (string * pyval) :=
  match cs with
  | [] => acc
  | Reset :: cs' => spec_bindings study cs' []
  | SelectCohort name :: cs' =>
      spec_bindings study cs'
        (acc ++ [(_quote_ident study +:+ " = ?", PStr name)])
  | Filter columns :: cs' =>
      spec_bindings study cs' (acc ++ map spec_binding columns)
  | Metrics _ _ _ :: cs' => spec_bindings study cs' acc
  end.

(** Placeholders of an SQL text: the question marks outside quoted
    identifiers and outside string literals. *)
Inductive lexmode : Type := Code | Ident | Literal.

Definition lex_char (m : lexmode) (c : ascii) : lexmode * nat :=
  match m with
  | Code =>
      if bool_decide (c = dq) then (Ident, 0)
      else if bool_decide (c = sq) then (Literal, 0)
      else if bool_decide (c = "?"%char) then (Code, 1)
      else (Code, 0)
  | Ident => if bool_decide (c = dq) then (Code, 0) else (Ident, 0)
  | Literal => if bool_decide (c = sq) then (Code, 0) else (Literal, 0)
  end.

Fixpoint scan (m : lexmode) (s : string) : lexmode * nat :=
  match s with
  | EmptyString => (m, 0)
  | String c s' =>
      let '(m1, k) := lex_char m c in
      let '(m2, n) := scan m1 s' in
      (m2, k + n)
  end.

Definition placeholders (sql : string) : nat := (scan Code sql).2.

(** A text that is read from [Code] back to [Code] with [k] placeholders. *)
Definition code_text (k : nat) (s : string) : Prop := scan Code s = (Code, k).

(** The text before the [WHERE] conditions. *)
Definition sql_head (tbl : string) (sel : option (list string)) : string :=
  "SELECT " +:+ select_sql sel +:+ " FROM " +:+ _quote_ident tbl
    +:+ " WHERE ".

(** What comes before and after one clause in the joined conditions. *)
Definition joined_before (parts : list string) : string :=
  fold_right (λ p acc, p +:+ " AND " +:+ acc) "" parts.

Definition joined_after (parts : list string) : string :=
  match parts with
  | [] => ""
  | _ :: _ => " AND " +:+ join " AND " parts
  end.

(** Every question mark of a text, quoted or not. *)
Fixpoint question_marks (s : string) : nat :=
  match s with
  | EmptyString => 0
  | String c s' => (if bool_decide (c = "?"%char) then 1 else 0)
                   + question_marks s'
  end.

(** [sub] occurs in [s]. *)
Definition occurs_in (sub s : string) : Prop :=
  ∃ pre post, s = pre +:+ sub +:+ post.

(** The organ and kind test of the specification. *)
Definition spec_group_match (toks : list string) (name : string) : Prop :=
  toks = [] ∨ ∃ t, t ∈ toks ∧ occurs_in (lower t) (lower name).

(** The first entry of [cands] that is in [cols]. *)
Definition first_present (cands cols : list string) (c : string) : Prop :=
  ∃ before after,
    cands = before ++ c :: after ∧ c ∈ cols ∧ ∀ x, x ∈ before → x ∉ cols.

(** De-duplication that keeps the first occurrence of every entry. *)
Fixpoint dedup_first (l : list string) : list string :=
  match l with
  | [] => []
  | x :: l' =>
      x :: List.filter (λ y, negb (bool_decide (y = x))) (dedup_first l')
  end.

(** Position of the first occurrence of [x] in [l]; [length l] when there
    is none. *)
Fixpoint first_index (x : string) (l : list string) : nat :=
  match l with
  | [] => 0
  | y :: l' => if bool_decide (x = y) then 0 else S (first_index x l')
  end.

End CohortStore.

(** ** The parameter list as a shared object

    [_params] is a Python list: a mutable object that every holder of a
    reference sees change.  Here the list lives in a heap, the builder
    holds its address, and [_build_sql] hands out the address of a copy. *)

Module Obj.
Import Py CohortStore.

Record cohort_obj : Type := CohortObj {
  o_table : string;
  o_study_col : string;
  o_where_parts : list string;
  o_params : positive;
  o_select_cols : option (list string)
}.

(** The builder as the state-passing model sees it. *)
Definition view (h : gmap positive (list pyval)) (o : cohort_obj) : store :=
  Store (o_table o) (o_study_col o) (o_where_parts o)
        (h !!! o_params o) (o_select_cols o).

(** [list(xs)] and [[]]: a new list object at an unused address. *)
Definition alloc (xs : list pyval) (h : gmap positive (list pyval))
  : positive * gmap positive (list pyval) :=
  let l := fresh (dom h) in (l, <[l := xs]> h).

(** [_build_sql]: the text, and a copy of the parameters. *)
Definition _build_sql (h : gmap positive (list pyval)) (o : cohort_obj)
  : (string * positive) * gmap positive (list pyval) :=
  let sql := sql_text (o_table o) (o_where_parts o) (o_select_cols o) in
  let '(l, h') := alloc (h !!! o_params o) h in
  ((sql, l), h').

(** [reset] binds [_params] to a new empty list. *)
Definition reset (h : gmap positive (list pyval)) (o : cohort_obj)
  : cohort_obj * gmap positive (list pyval) :=
  let '(l, h') := alloc [] h in
  (CohortObj (o_table o) (o_study_col o) [] l None, h').

(** The two [append]s: the parameter list is extended in place. *)
Definition push (part : string) (v : pyval)
    (h : gmap positive (list pyval)) (o : cohort_obj)
  : cohort_obj * gmap positive (list pyval) :=
  (CohortObj (o_table o) (o_study_col o) (o_where_parts o ++ [part])
             (o_params o) (o_select_cols o),
   <[o_params o := (h !!! o_params o) ++ [v]]> h).

Definition select_cohort (name : string)
    (h : gmap positive (list pyval)) (o : cohort_obj)
  : cohort_obj * gmap positive (list pyval) :=
  push (_quote_ident (o_study_col o) +:+ " = ?") (PStr name) h o.

(** The parts of what [_build_sql] gives: the text, the address of the
    returned list, the heap after the call, and the content of the
    returned list in a heap. *)
Definition sql_of (r : (string * positive) * gmap positive (list pyval))
  : string := r.1.1.

Definition loc_of (r : (string * positive) * gmap positive (list pyval))
  : positive := r.1.2.

Definition heap_of (r : (string * positive) * gmap positive (list pyval))
  : gmap positive (list pyval) := r.2.

Definition params_of (r : (string * positive) * gmap positive (list pyval))
  : list pyval := r.2 !!! r.1.2.

(** What a caller can do to a list it holds: any change of its content. *)
Definition caller_mutates (l : positive) (xs : list pyval)
    (h : gmap positive (list pyval)) : gmap positive (list pyval) :=
  <[l := xs]> h.

End Obj.

(** ** The upsert of [etl_wrappers.py]

    [upsert_rows_from_csv] sends three statements to the database:
    [CREATE TABLE IF NOT EXISTS t AS SELECT * FROM incoming LIMIT 0],
    [DELETE FROM t USING incoming i WHERE t.c1 = i.c1 AND ...] and
    [INSERT INTO t SELECT * FROM incoming].  A relation is a list of
    column names with rows of cells; column names are compared exactly
    and the cells of a column are of one type. *)

Module Etl.

Inductive cell : Type :=
| CNull
| CInt (z : Z)
| CText (s : string).

Record relation : Type := Relation {
  rel_cols : list string;
  rel_rows : list (list cell)
}.

Inductive sql_error : Type :=
| ParserError
| BinderError.

(** The database after the call, and the error if a statement failed:
    statements already executed are not undone. *)
Inductive sql_result : Type :=
| Done (d : gmap string relation)
| Failed (e : sql_error) (d : gmap string relation).

Fixpoint col_index (c : string) (cols : list string) : option nat :=
  match cols with
  | [] => None
  | x :: rest => if bool_decide (c = x) then Some 0 else S <$> col_index c rest
  end.

(** The cell of [row] under column [c]. *)
Definition cell_at (cols : list string) (row : list cell) (c : string)
  : cell :=
  match col_index c cols with
  | Some i => default CNull (row !! i)
  | None => CNull
  end.

(** SQL [=] as a [WHERE] condition: true only for two equal values that
    are not NULL. *)
Definition sql_eq (a b : cell) : bool :=
  match a, b with
  | CInt x, CInt y => bool_decide (x = y)
  | CText x, CText y => bool_decide (x = y)
  | _, _ => false
  end.

(** The [conditions] of the [DELETE]: the [AND] of one equality per
    identifier column. *)
Definition conditions (id_cols tcols icols : list string)
    (t_row i_row : list cell) : bool :=
  forallb (λ c, sql_eq (cell_at tcols t_row c) (cell_at icols i_row c))
          id_cols.

Definition create_if_not_exists (table : string) (incoming : relation)
    (d : gmap string relation) : gmap string relation :=
  match d !! table with
  | Some _ => d
  | None => <[table := Relation (rel_cols incoming) []]> d
  end.

(** [DELETE ... USING]: a row goes when some incoming row satisfies the
    conditions with it. *)
Definition delete_using (id_cols : list string) (t incoming : relation)
  : relation :=
  Relation (rel_cols t)
    (List.filter
       (λ r, negb (existsb (conditions id_cols (rel_cols t)
                                       (rel_cols incoming) r)
                           (rel_rows incoming)))
       (rel_rows t)).

(** [INSERT INTO t SELECT * FROM incoming]: by position, after the rows
    that are there. *)
Definition insert_all (t incoming : relation) : relation :=
  Relation (rel_cols t) (rel_rows t ++ rel_rows incoming).

Definition upsert_rows_from_csv (df_new : relation)
    (d : gmap string relation) (table : string) (id_cols : list string)
  : sql_result :=
  let d1 := create_if_not_exists table df_new d in
  match d1 !! table with
  | None => Failed BinderError d1
  | Some t =>
      match id_cols with
      | [] => Failed ParserError d1
      | _ :: _ =>
          if forallb (λ c, Py.str_in c (rel_cols t)
                           && Py.str_in c (rel_cols df_new)) id_cols
          then
            let t2 := delete_using id_cols t df_new in
            let d2 := <[table := t2]> d1 in
            if length (rel_cols df_new) =? length (rel_cols t2)
            then Done (<[table := insert_all t2 df_new]> d2)
            else Failed BinderError d2
          else Failed BinderError d1
      end
  end.




End Etl.

(** ** The one-call query of [etl_wrappers.py]

    [query_cohort] builds its text and its parameters in one go and
    hands them to the database; the model is the pair it hands over.
    [cols] is what [PRAGMA table_info] returned. *)

Module Wrappers.
Import Py CohortStore.

(** The study column of [build_db_from_csv] and [query_cohort]:
    "Study Name" when the table has it, else "Study". *)
Definition study_col (cols : list string) : option string :=
  if str_in "Study Name" cols then Some "Study Name"
  else if str_in "Study" cols then Some "Study"
  else None.

(** The name between two double quotes, as the f-strings write it:
    embedded quotes are not doubled. *)
Definition plain_quote (name : string) : string :=
  str1 dq +:+ name +:+ str1 dq.

(** The loop over [filters.items()]. *)
Fixpoint filter_loop (filters : list (string * pyval))
    (where_parts : list string) (params : list pyval)
  : list string * list pyval :=
  match filters with
  | [] => (where_parts, params)
  | (col, val) :: rest =>
      match val with
      | PTuple [op; v] =>
          filter_loop rest
            (where_parts ++ [plain_quote col +:+ " " +:+ str op +:+ " ?"])
            (params ++ [v])
      | _ =>
          filter_loop rest (where_parts ++ [plain_quote col +:+ " = ?"])
                      (params ++ [val])
      end
  end.

(** Truth value of an optional list argument. *)
Definition truthy {A : Type} (arg : option (list A)) : bool :=
  match arg with
  | Some (_ :: _) => true
  | _ => false
  end.

(** The list [select_cols] of the branch that names columns. *)
Definition select_cols (cols : list string) (study : string)
    (organs kinds : option (list string)) : list string :=
  let keep := List.filter (matches (tokens organs) (tokens kinds)) cols in
  let base := add_id_col ID_CANDIDATES cols [study] in
  base ++ keep.

Definition select_sql (cols : list string) (study : string)
    (organs kinds : option (list string)) : string :=
  if truthy organs || truthy kinds
  then join ", " (map plain_quote (select_cols cols study organs kinds))
  else "*".

Definition limit_sql (limit : option Z) : string :=
  match limit with
  | Some z => if (z =? 0)%Z then "" else " LIMIT " +:+ str_of_Z z
  | None => ""
  end.

Definition query_cohort (cols : list string) (study_name : string)
    (table : string) (filters : option (list (string * pyval)))
    (organs kinds : option (list string)) (limit : option Z)
  : outcome (string * list pyval) :=
  match study_col cols with
  | None => Raised (RuntimeError "No 'Study Name' or 'Study' column found.")
  | Some study =>
      let '(where_parts, params) :=
        filter_loop (default [] filters)
                    [plain_quote study +:+ " = ?"] [PStr study_name] in
      let sql := "SELECT " +:+ select_sql cols study organs kinds
                 +:+ " FROM " +:+ table +:+ " WHERE "
                 +:+ where_sql where_parts +:+ limit_sql limit in
      Returned (sql, params)
  end.

(** The clause and the value one entry of [filters] adds. *)
Definition binding (cv : string * pyval) : string * pyval :=
  match cv.2 with
  | PTuple [op; v] => (plain_quote cv.1 +:+ " " +:+ str op +:+ " ?", v)
  | _ => (plain_quote cv.1 +:+ " = ?", cv.2)
  end.

(** A predicate both query builders treat alike: no double quote in the
    column name, and an operator that is one of the allowed ones as it
    is written. *)
Definition plain_predicate (cv : string * pyval) : bool :=
  negb (has_char dq cv.1)
  && match cv.2 with
     | PTuple [PStr op; _] => str_in op _ALLOWED_OPS
     | PTuple [_; _] => false
     | _ => true
     end.

End Wrappers.

(** ** The study columns of [ingest.py]

    The script keeps every candidate that is a column of the table and
    builds the view [studies] as the union of one query per kept
    candidate; it stops with an error when it keeps none. *)

Module Ingest.
Import Py CohortStore.

Definition candidates : list string :=
  ["Study"; "Study Name"; "study"; "StudyName"; "Study_Name"].

Definition study_cols (cols : list string) : list string :=
  List.filter (λ c, str_in c cols) candidates.

Definition nl : string := str1 "010"%char.

Definition view_part (sc : string) : string :=
  "SELECT DISTINCT " +:+ str1 dq +:+ sc +:+ str1 dq
    +:+ " AS study_name FROM raw WHERE " +:+ str1 dq +:+ sc +:+ str1 dq
    +:+ " IS NOT NULL".

(** The text of the view, or the error. *)
Definition view_sql (cols : list string) : outcome string :=
  match study_cols cols with
  | [] =>
      Raised (RuntimeError
                ("Could not find a study column. Available columns:"
                   +:+ nl +:+ repr (PList (map PStr cols))))
  | sc :: rest =>
      Returned (" CREATE OR REPLACE VIEW studies AS " +:+ nl
                  +:+ join (" " +:+ nl +:+ "UNION" +:+ nl +:+ " ")
                           (map view_part (sc :: rest)))
  end.

End Ingest.

(** * Properties *)

Import Py CohortStore.

(** Membership in a list of literals, by evaluation. *)
Ltac in_literals :=
  match goal with
  | |- _ ∉ _ => apply (proj1 (bool_decide_eq_false _)); reflexivity
  | |- _ ∈ _ => apply (proj1 (bool_decide_eq_true _)); reflexivity
  end.

(** ** Strings *)

Section strings.
Implicit Types (s t u : string) (c : ascii).

Lemma str_app_nil_l s : "" +:+ s = s.
Proof. reflexivity. Qed.

Lemma str_app_cons c s t : String c s +:+ t = String c (s +:+ t).
Proof. reflexivity. Qed.

Lemma str_app_nil_r s : s +:+ "" = s.
Proof.
  induction s as [|c s IH]; [done|]. by rewrite str_app_cons, IH.
Qed.

Lemma str_app_assoc s t u : (s +:+ t) +:+ u = s +:+ (t +:+ u).
Proof.
  induction s as [|c s IH]; [done|]. by rewrite !str_app_cons, IH.
Qed.

Lemma chars_app s t :
  String.list_ascii_of_string (s +:+ t)
  = String.list_ascii_of_string s ++ String.list_ascii_of_string t.
Proof.
  induction s as [|c s IH]; [done|].
  rewrite str_app_cons. simpl. by rewrite IH.
Qed.

Lemma str_length_chars s :
  String.length s = length (String.list_ascii_of_string s).
Proof. induction s; simpl; congruence. Qed.

Lemma prefix_nil s : String.prefix "" s = true.
Proof. by destruct s. Qed.

Lemma prefix_cons c d s t :
  String.prefix (String c s) (String d t)
  = bool_decide (c = d) && String.prefix s t.
Proof. simpl. destruct (ascii_dec c d); case_bool_decide; naive_solver. Qed.

Lemma prefix_app s t : String.prefix s (s +:+ t) = true.
Proof.
  induction s as [|c s IH]; [apply prefix_nil|].
  rewrite str_app_cons, prefix_cons, IH. by rewrite bool_decide_eq_true_2.
Qed.

Lemma prefix_split s t :
  String.prefix s t = true → ∃ post, t = s +:+ post.
Proof.
  revert t. induction s as [|c s IH]; intros t H.
  - by exists t.
  - destruct t as [|d t]; [done|].
    rewrite prefix_cons in H. apply andb_prop in H as [Hc Hs].
    apply bool_decide_eq_true_1 in Hc as ->.
    destruct (IH _ Hs) as [post ->]. by exists post.
Qed.

(** [contains] is Python's [in]: it finds exactly the occurrences. *)
Lemma contains_occurs sub s : contains sub s = true ↔ occurs_in sub s.
Proof.
  unfold occurs_in. induction s as [|c s IH].
  - cbn [contains]. rewrite orb_false_r. split.
    + intros [post ->]%prefix_split. by exists "", post.
    + intros (pre & post & H). destruct pre; [|done].
      rewrite str_app_nil_l in H. rewrite H. apply prefix_app.
  - cbn [contains]. rewrite orb_true_iff, IH. split.
    + intros [[post ->]%prefix_split | (pre & post & ->)].
      * by exists "", post.
      * by exists (String c pre), post.
    + intros (pre & post & H). destruct pre as [|d pre].
      * left. rewrite str_app_nil_l in H. rewrite H. apply prefix_app.
      * right. rewrite str_app_cons in H. injection H as -> ->.
        by exists pre, post.
Qed.

(** Replacing a single character: every occurrence becomes [new]. *)
Lemma replace_char_cons c d new s :
  replace (str1 c) new (String d s)
  = (if bool_decide (c = d) then new else str1 d) +:+ replace (str1 c) new s.
Proof.
  unfold replace, str1. cbn [replace_from].
  rewrite prefix_cons, prefix_nil, andb_true_r. by case_bool_decide.
Qed.

End strings.

(** ** Identifier quoting *)

Lemma quote_ident_chars (name : string) :
  String.list_ascii_of_string (_quote_ident name)
  = dq :: spec_doubled (String.list_ascii_of_string name) ++ [dq].
Proof.
  unfold _quote_ident. rewrite !chars_app.
  change (String.list_ascii_of_string (str1 dq)) with [dq].
  cbn [app]. f_equal. f_equal.
  induction name as [|c name IH]; [done|].
  rewrite replace_char_cons, chars_app, IH.
  unfold spec_doubled. cbn [String.list_ascii_of_string flat_map].
  case_bool_decide; case_decide; naive_solver.
Qed.

Lemma undouble_doubled (cs : list ascii) : undouble (spec_doubled cs) = cs.
Proof.
  induction cs as [|c cs IH]; [done|].
  unfold spec_doubled in *. cbn [flat_map]. case_decide as Hc.
  - subst c. cbn [app undouble]. rewrite decide_True by done.
    by rewrite IH.
  - cbn [app undouble]. rewrite decide_False by done. by rewrite IH.
Qed.

(** Quoting loses nothing: two names with the same quoted form are the
    same name. *)
Lemma quote_ident_inj (a b : string) :
  _quote_ident a = _quote_ident b → a = b.
Proof.
  intros H. apply (f_equal String.list_ascii_of_string) in H.
  rewrite !quote_ident_chars in H. injection H as H.
  apply app_inv_tail in H. apply (f_equal undouble) in H.
  rewrite !undouble_doubled in H.
  rewrite <- (String.string_of_list_ascii_of_string a),
          <- (String.string_of_list_ascii_of_string b). by rewrite H.
Qed.

(** C9: for every string, the empty one included, [_quote_ident] returns
    a value (it is a total function of its argument alone): the opening
    delimiter, the characters of the input with every double quote
    written twice, and the closing delimiter. *)
Theorem quote_ident_total (name : string) :
  ∃ quoted,
    _quote_ident name = quoted
    ∧ String.list_ascii_of_string quoted
      = dq :: spec_doubled (String.list_ascii_of_string name) ++ [dq]
    ∧ String.length quoted
      = 2 + String.length name
        + length (List.filter (λ c, bool_decide (c = dq))
                              (String.list_ascii_of_string name))
    ∧ _quote_ident "" = String dq (String dq "").
Proof.
  exists (_quote_ident name). split; [done|].
  split; [apply quote_ident_chars|]. split; [|done].
  rewrite !str_length_chars, quote_ident_chars. simpl. rewrite length_app.
  simpl.
  induction (String.list_ascii_of_string name) as [|c cs IH]; [done|].
  unfold spec_doubled in *. simpl. rewrite length_app.
  case_decide; case_bool_decide; try done; simpl in *; lia.
Qed.

(** ** Study column detection *)

Lemma str_in_true (x : string) (xs : list string) :
  str_in x xs = true ↔ x ∈ xs.
Proof. unfold str_in. by rewrite bool_decide_eq_true. Qed.

Lemma str_in_false (x : string) (xs : list string) :
  str_in x xs = false ↔ x ∉ xs.
Proof. unfold str_in. by rewrite bool_decide_eq_false. Qed.

Lemma first_in_Some (cands cols : list string) (c : string) :
  first_in cands cols = Some c ↔ first_present cands cols c.
Proof.
  unfold first_present. induction cands as [|x cands IH]; cbn [first_in].
  - split; [done|]. intros (before & after & H & _). by destruct before.
  - destruct (str_in x cols) eqn:Hx.
    + apply str_in_true in Hx. split.
      * intros [= ->]. exists [], cands. set_solver.
      * intros (before & after & H & Hc & Hb).
        destruct before as [|y before]; simplify_eq/=; [done|].
        exfalso. apply (Hb y); [left | done].
    + apply str_in_false in Hx. rewrite IH. split.
      * intros (before & after & -> & Hc & Hb).
        exists (x :: before), after. set_solver.
      * intros (before & after & H & Hc & Hb).
        destruct before as [|y before]; simplify_eq/=; [done|].
        exists before, after. set_solver.
Qed.

Lemma first_in_None (cands cols : list string) :
  first_in cands cols = None ↔ ∀ c, c ∈ cands → c ∉ cols.
Proof.
  induction cands as [|x cands IH]; cbn [first_in]; [set_solver|].
  destruct (str_in x cols) eqn:Hx.
  - apply str_in_true in Hx. set_solver.
  - apply str_in_false in Hx. rewrite IH. set_solver.
Qed.

Lemma first_in_ext (cands cols cols' : list string) :
  (∀ c, c ∈ cols ↔ c ∈ cols') → first_in cands cols' = first_in cands cols.
Proof.
  intros H. induction cands as [|x cands IH]; [done|]. cbn [first_in].
  rewrite IH. unfold str_in. by rewrite (bool_decide_ext _ _ (H x)).
Qed.

(** C4: study-column detection returns the first entry of the priority
    list "Study", "Study Name", "study", "StudyName", "Study_Name" that is
    among the columns, whatever the order of the columns, and raises the
    "No study column found" error exactly when none of them is. *)
Theorem detect_study_col_priority (tbl : string) (cols : list string) :
  (∀ c, _detect_study_col tbl cols = Returned c
        ↔ first_present STUDY_CANDIDATES cols c)
  ∧ (_detect_study_col tbl cols
       = Raised (RuntimeError
                   ("No study column found in table '" +:+ tbl +:+ "'."))
     ↔ ∀ c, c ∈ STUDY_CANDIDATES → c ∉ cols)
  ∧ (∀ cols', (∀ c, c ∈ cols ↔ c ∈ cols')
              → _detect_study_col tbl cols' = _detect_study_col tbl cols)
  ∧ _detect_study_col tbl ["Study_Name"; "Study Name"; "Study"]
    = Returned "Study".
Proof.
  unfold _detect_study_col. repeat split.
  - rewrite <- first_in_Some.
    destruct (first_in STUDY_CANDIDATES cols); naive_solver.
  - rewrite <- first_in_Some.
    destruct (first_in STUDY_CANDIDATES cols); naive_solver.
  - rewrite <- first_in_None.
    destruct (first_in STUDY_CANDIDATES cols); naive_solver.
  - rewrite <- first_in_None.
    destruct (first_in STUDY_CANDIDATES cols); naive_solver.
  - intros cols' H. by rewrite (first_in_ext _ _ _ H).
Qed.

(** ** The assembled query after [reset] *)

(** C8: after [reset], [_build_sql] returns the text
    [SELECT * FROM {quoted table} WHERE 1=1] and no parameter. *)
Theorem reset_then_build (s : store) :
  _build_sql (reset s)
  = ("SELECT * FROM " +:+ _quote_ident (table s) +:+ " WHERE 1=1", [])
  ∧ query_sql (reset s)
    = "SELECT * FROM " +:+ _quote_ident (table s) +:+ " WHERE 1=1".
Proof. done. Qed.

(** ** Filters *)

Lemma extend_nil (s : store) : extend [] s = s.
Proof. destruct s. unfold extend. simpl. by rewrite !app_nil_r. Qed.

Lemma extend_extend (bs1 bs2 : list (string * pyval)) (s : store) :
  extend bs2 (extend bs1 s) = extend (bs1 ++ bs2) s.
Proof. unfold extend. simpl. by rewrite !fmap_app, !app_assoc. Qed.

Lemma push_extend (part : string) (v : pyval) (s : store) :
  push part v s = extend [(part, v)] s.
Proof. done. Qed.

(** One turn of the loop of [filter], for a predicate that is accepted. *)
Lemma filter_cons_accepted (col : string) (val : pyval)
    (rest : list (string * pyval)) (s : store) :
  accepted val = true →
  filter ((col, val) :: rest) s
  = filter rest (extend [spec_binding (col, val)] s).
Proof.
  intros Hacc. unfold spec_binding. cbn [filter fst snd].
  destruct val as [| | | |items|]; try done.
  destruct items as [|op [|v [|w items]]]; try done.
  cbn [accepted] in Hacc. by rewrite Hacc.
Qed.

(** One turn of the loop, for a predicate that is rejected. *)
Lemma filter_cons_rejected (col : string) (val : pyval)
    (rest : list (string * pyval)) (s : store) :
  accepted val = false →
  ∃ op v, val = PTuple [op; v]
          ∧ str_in (upper (str op)) _ALLOWED_OPS = false
          ∧ filter ((col, val) :: rest) s
            = (Raised (ValueError (unsupported_msg op col)), s).
Proof.
  intros Hacc. destruct val as [| | | |items|]; try done.
  destruct items as [|op [|v [|w items]]]; try done.
  exists op, v. cbn [accepted] in Hacc. cbn [filter]. by rewrite Hacc.
Qed.

Lemma filter_app_accepted (before rest : list (string * pyval)) (s : store) :
  forallb (λ cv, accepted cv.2) before = true →
  filter (before ++ rest) s
  = filter rest (extend (map spec_binding before) s).
Proof.
  revert s. induction before as [|[col val] before IH]; intros s Hacc.
  - by rewrite extend_nil.
  - cbn [forallb snd] in Hacc. apply andb_prop in Hacc as [Hv Hb].
    rewrite <- app_comm_cons, (filter_cons_accepted _ _ _ _ Hv), (IH _ Hb).
    by rewrite extend_extend.
Qed.

Lemma filter_accepted (columns : list (string * pyval)) (s : store) :
  forallb (λ cv, accepted cv.2) columns = true →
  filter columns s = (Returned (), extend (map spec_binding columns) s).
Proof.
  intros H. rewrite <- (app_nil_r columns) at 1.
  by rewrite (filter_app_accepted _ _ _ H).
Qed.

(** The first rejected predicate of a call, with the accepted ones
    before it. *)
Lemma first_rejected (columns : list (string * pyval)) :
  forallb (λ cv, accepted cv.2) columns = false →
  ∃ before col val after,
    columns = before ++ (col, val) :: after
    ∧ forallb (λ cv, accepted cv.2) before = true
    ∧ accepted val = false.
Proof.
  induction columns as [|[col val] columns IH]; [done|].
  cbn [forallb snd]. destruct (accepted val) eqn:Hv.
  - rewrite andb_true_l. intros (before & c & v & after & -> & Hb & Hr)%IH.
    exists ((col, val) :: before), c, v, after. cbn [forallb snd].
    by rewrite Hv, Hb.
  - intros _. by exists [], col, val, columns.
Qed.

(** Where a call with a rejected predicate stops, and what it leaves. *)
Lemma filter_stops_at_first_rejected (columns : list (string * pyval))
    (s : store) :
  forallb (λ cv, accepted cv.2) columns = false →
  ∃ before col op v after,
    columns = before ++ (col, PTuple [op; v]) :: after
    ∧ forallb (λ cv, accepted cv.2) before = true
    ∧ str_in (upper (str op)) _ALLOWED_OPS = false
    ∧ filter columns s
      = (Raised (ValueError (unsupported_msg op col)),
         extend (map spec_binding before) s).
Proof.
  intros (before & col & val & after & -> & Hb & Hr)%first_rejected.
  destruct (filter_cons_rejected col val after
              (extend (map spec_binding before) s) Hr)
    as (op & v & -> & Hop & Hf).
  exists before, col, op, v, after.
  by rewrite (filter_app_accepted _ _ _ Hb), Hf.
Qed.

(** C1, as the code has it: a [filter] call with a predicate whose
    operator is not an allowed one raises [ValueError] at the first such
    predicate.  The clauses and parameters of the predicates written
    before it in the call have been appended by then, and nothing else;
    so the builder is exactly as before the call when the offending
    predicate is the first (or the only) one of the call. *)
Theorem filter_rejects_unsupported (columns : list (string * pyval))
    (s : store) :
  forallb (λ cv, accepted cv.2) columns = false →
  ∃ before col op v after,
    columns = before ++ (col, PTuple [op; v]) :: after
    ∧ forallb (λ cv, accepted cv.2) before = true
    ∧ str_in (upper (str op)) _ALLOWED_OPS = false
    ∧ filter columns s
      = (Raised (ValueError (unsupported_msg op col)),
         extend (map spec_binding before) s)
    ∧ (before = [] → (filter columns s).2 = s).
Proof.
  intros (before & col & op & v & after & Hc & Hb & Hop & Hf)
    %(filter_stops_at_first_rejected _ s).
  exists before, col, op, v, after. rewrite Hf.
  repeat split; [done..|]. intros ->. apply extend_nil.
Qed.

Lemma filter_rejects_unsupported_witness :
  let s := Store "raw" "Study" [] [] None in
  let columns := [("Age", PTuple [PStr "~"; PInt 70])] in
  forallb (λ cv, accepted cv.2) columns = false
  ∧ ∃ before col op v after,
      columns = before ++ (col, PTuple [op; v]) :: after
      ∧ forallb (λ cv, accepted cv.2) before = true
      ∧ str_in (upper (str op)) _ALLOWED_OPS = false
      ∧ filter columns s
        = (Raised (ValueError (unsupported_msg op col)),
           extend (map spec_binding before) s)
      ∧ (before = [] → (filter columns s).2 = s).
Proof.
  split; [reflexivity|].
  apply (filter_rejects_unsupported
           [("Age", PTuple [PStr "~"; PInt 70])]
           (Store "raw" "Study" [] [] None)).
  reflexivity.
Defined.

(** C1, as the claim words it, fails on a call with two predicates: the
    accepted predicate written first is appended before the second one
    is rejected. *)
Lemma filter_rejection_keeps_earlier :
  let s := Store "raw" "Study" [] [] None in
  let columns := [("Sex", PStr "f"); ("Age", PTuple [PStr "~"; PInt 70])] in
  accepted (PTuple [PStr "~"; PInt 70]) = false
  ∧ (∃ msg, (filter columns s).1 = Raised (ValueError msg))
  ∧ _where_parts (filter columns s).2
    = [_quote_ident "Sex" +:+ " = ?"]
  ∧ _params (filter columns s).2 = [PStr "f"]
  ∧ ¬ (_where_parts (filter columns s).2 = _where_parts s
       ∧ _params (filter columns s).2 = _params s).
Proof.
  cbv zeta. split; [reflexivity|]. split; [by eexists|].
  split; [reflexivity|]. split; [reflexivity|]. by intros [[=] _].
Qed.


Example filter_triple_is_equals :
  filter [("Dose", PTuple [PStr "<"; PInt 5; PInt 9])]
         (Store "raw" "Study" [] [] None)
  = (Returned (),
     Store "raw" "Study" [_quote_ident "Dose" +:+ " = ?"]
           [PTuple [PStr "<"; PInt 5; PInt 9]] None).
Proof. reflexivity. Qed.


(** ** Placeholders of the assembled text *)

Section placeholders.
Implicit Types (s t : string) (m : lexmode).

Lemma scan_app m s t :
  scan m (s +:+ t)
  = ((scan (scan m s).1 t).1, (scan m s).2 + (scan (scan m s).1 t).2).
Proof.
  revert m. induction s as [|c s IH]; intros m.
  - rewrite str_app_nil_l. cbn [scan fst snd]. by destruct (scan m t).
  - rewrite str_app_cons. cbn [scan]. destruct (lex_char m c) as [m1 k].
    rewrite IH. destruct (scan m1 s) as [m2 n]. cbn [fst snd].
    destruct (scan m2 t) as [m3 n']. cbn [fst snd]. f_equal. lia.
Qed.

Lemma code_text_app j k s t :
  code_text j s → code_text k t → code_text (j + k) (s +:+ t).
Proof.
  unfold code_text. intros Hs Ht. rewrite scan_app, Hs. cbn [fst snd].
  by rewrite Ht.
Qed.

Lemma code_text_app0 k s t :
  code_text 0 s → code_text k t → code_text k (s +:+ t).
Proof. apply (code_text_app 0 k). Qed.

(** Inside a quoted identifier a doubled quote leaves the quotation and
    enters it again. *)
Lemma scan_ident_doubled name :
  scan Ident (replace (str1 dq) (String dq (str1 dq)) name) = (Ident, 0).
Proof.
  induction name as [|c name IH]; [done|].
  rewrite replace_char_cons, scan_app. case_bool_decide as Hc.
  - change (scan Ident (String dq (str1 dq))) with (Ident, 0).
    cbn [fst snd]. by rewrite IH.
  - change (str1 c) with (String c ""). cbn [scan lex_char].
    rewrite bool_decide_eq_false_2 by done. cbn [fst snd]. by rewrite IH.
Qed.

Lemma code_text_quote_ident name : code_text 0 (_quote_ident name).
Proof.
  unfold code_text, _quote_ident. rewrite !scan_app.
  change (scan Code (str1 dq)) with (Ident, 0). cbn [fst snd].
  rewrite scan_ident_doubled. cbn [fst snd]. done.
Qed.

Lemma code_text_allowed_op op :
  str_in op _ALLOWED_OPS = true → code_text 0 op.
Proof.
  intros H%str_in_true. unfold _ALLOWED_OPS in H.
  repeat (apply elem_of_cons in H as [->|H]; [done|]).
  by apply elem_of_nil in H.
Qed.

Lemma code_text_join_quoted cols :
  code_text 0 (join ", " (map _quote_ident cols)).
Proof.
  unfold join. induction cols as [|c cols IH]; [done|].
  destruct cols as [|c' cols]; [apply code_text_quote_ident|].
  cbn [map String.concat] in *.
  apply code_text_app0; [apply code_text_quote_ident|].
  by apply code_text_app0.
Qed.

Lemma code_text_select_sql sel : code_text 0 (select_sql sel).
Proof.
  destruct sel as [cols|]; [apply code_text_join_quoted | done].
Qed.

Lemma sql_text_head tbl parts sel :
  sql_text tbl parts sel = sql_head tbl sel +:+ where_sql parts.
Proof. unfold sql_text, sql_head. by rewrite !str_app_assoc. Qed.

Lemma code_text_sql_head tbl sel : code_text 0 (sql_head tbl sel).
Proof.
  unfold sql_head.
  apply code_text_app0; [done|].
  apply code_text_app0; [apply code_text_select_sql|].
  apply code_text_app0; [done|].
  apply code_text_app0; [apply code_text_quote_ident | done].
Qed.

(** The clause of an accepted predicate holds one placeholder. *)
Lemma code_text_spec_binding cv :
  accepted cv.2 = true → code_text 1 (spec_binding cv).1.
Proof.
  destruct cv as [col val]. unfold spec_binding. cbn [fst snd].
  intros Hacc.
  assert (Heq : code_text 1 (_quote_ident col +:+ " = ?")).
  { apply code_text_app0; [apply code_text_quote_ident | done]. }
  destruct val as [| | | |items|]; try done.
  destruct items as [|op [|v [|w items]]]; try done.
  cbn [fst]. cbn [accepted] in Hacc.
  apply code_text_app0; [apply code_text_quote_ident|].
  apply code_text_app0; [done|].
  apply code_text_app0; [by apply code_text_allowed_op | done].
Qed.

Lemma join_cons_cons sep p q parts :
  join sep (p :: q :: parts) = p +:+ sep +:+ join sep (q :: parts).
Proof. done. Qed.

Lemma join_split (before after : list string) (p : string) :
  join " AND " (before ++ p :: after)
  = joined_before before +:+ p +:+ joined_after after.
Proof.
  induction before as [|q before IH].
  - cbn [app joined_before fold_right]. rewrite str_app_nil_l.
    destruct after as [|a after]; [by rewrite str_app_nil_r | done].
  - cbn [app joined_before fold_right].
    destruct (before ++ p :: after) as [|x rest] eqn:Hx.
    { by destruct before. }
    rewrite join_cons_cons, IH. by rewrite !str_app_assoc.
Qed.

Lemma code_text_joined_before (parts : list string) :
  Forall (code_text 1) parts → code_text (length parts) (joined_before parts).
Proof.
  induction 1 as [|p parts Hp _ IH]; [done|].
  cbn [joined_before fold_right length].
  apply (code_text_app 1); [done|]. by apply code_text_app0.
Qed.

Lemma code_text_join (parts : list string) :
  Forall (code_text 1) parts →
  code_text (length parts) (where_sql parts).
Proof.
  intros H. destruct parts as [|p parts]; [done|]. unfold where_sql.
  revert p H. induction parts as [|q parts IH]; intros p H.
  - by apply Forall_inv in H.
  - rewrite join_cons_cons. apply Forall_cons in H as [Hp H].
    apply (code_text_app 1); [done|]. apply code_text_app0; [done|].
    by apply IH.
Qed.

End placeholders.

(** ** Call sequences *)

Lemma init_Returned (tbl : string) (cols : list string) (s : store) :
  init tbl cols = Returned s →
  ∃ c, first_present STUDY_CANDIDATES cols c ∧ s = Store tbl c [] [] None.
Proof.
  unfold init, _detect_study_col.
  destruct (first_in STUDY_CANDIDATES cols) as [c|] eqn:Hc; [|done].
  intros [= <-]. exists c. by rewrite <- first_in_Some.
Qed.

(** No call changes the table or the study column. *)
Lemma step_fixed (s : store) (c : call) :
  table (step s c) = table s ∧ _study_col (step s c) = _study_col s.
Proof.
  destruct c as [|name|columns|colnames organs kinds]; try done.
  cbn [step].
  destruct (forallb (λ cv, accepted cv.2) columns) eqn:Hacc.
  - by rewrite (filter_accepted _ _ Hacc).
  - destruct (filter_stops_at_first_rejected _ s Hacc)
      as (before & col & op & v & after & _ & _ & _ & ->). done.
Qed.

(** With accepted predicates only, the two lists hold the clauses and
    the values of the bindings of the calls, in the order of the calls. *)
Lemma run_bindings (cs : list call) (s : store)
    (acc : list (string * pyval)) :
  forallb accepted_call cs = true →
  _where_parts s = acc.*1 → _params s = acc.*2 →
  _where_parts (run cs s) = (spec_bindings (_study_col s) cs acc).*1
  ∧ _params (run cs s) = (spec_bindings (_study_col s) cs acc).*2
  ∧ table (run cs s) = table s.
Proof.
  revert s acc. induction cs as [|c cs IH]; intros s acc Hacc Hw Hp; [done|].
  cbn [forallb] in Hacc. apply andb_prop in Hacc as [Hc Hcs].
  unfold run in *. cbn [fold_left].
  destruct (step_fixed s c) as [Ht Hs].
  destruct c as [|name|columns|colnames organs kinds];
    cbn [spec_bindings]; rewrite <- Hs, <- Ht.
  - by apply IH.
  - apply IH; [done|..]; cbn [step select_cohort push _where_parts _params];
      rewrite fmap_app; by f_equal.
  - cbn [accepted_call] in Hc. cbn [step] in *.
    rewrite (filter_accepted _ _ Hc) in *. cbn [snd] in *.
    apply IH; [done|..]; cbn [extend _where_parts _params];
      rewrite fmap_app; by f_equal.
  - by apply IH.
Qed.

Lemma spec_bindings_code_text (study : string) (cs : list call)
    (acc : list (string * pyval)) :
  forallb accepted_call cs = true →
  Forall (λ b, code_text 1 b.1) acc →
  Forall (λ b, code_text 1 b.1) (spec_bindings study cs acc).
Proof.
  revert acc. induction cs as [|c cs IH]; intros acc Hacc Hok; [done|].
  cbn [forallb] in Hacc. apply andb_prop in Hacc as [Hc Hcs].
  destruct c as [|name|columns|colnames organs kinds]; cbn [spec_bindings];
    apply IH; try done.
  - apply Forall_app. split; [done|]. apply Forall_singleton.
    apply code_text_app0; [apply code_text_quote_ident | done].
  - apply Forall_app. split; [done|]. cbn [accepted_call] in Hc.
    apply Forall_fmap, Forall_forall. intros cv Hcv.
    apply code_text_spec_binding.
    rewrite forallb_forall in Hc. apply Hc. by apply list_elem_of_In.
Qed.

(** One placeholder per stored clause gives as many placeholders in the
    text as there are clauses. *)
Lemma build_placeholders (s : store) :
  Forall (code_text 1) (_where_parts s) →
  placeholders (_build_sql s).1 = length (_where_parts s).
Proof.
  intros H. unfold placeholders, _build_sql. cbn [fst].
  rewrite sql_text_head.
  pose proof (code_text_app0 _ _ _ (code_text_sql_head (table s)
                (_select_cols s)) (code_text_join _ H)) as Hc.
  unfold code_text in Hc. by rewrite Hc.
Qed.

(** The invariant holds after every call, a rejected [filter] included. *)
Lemma step_aligned (s : store) (c : call) :
  length (_params s) = length (_where_parts s)
  ∧ Forall (code_text 1) (_where_parts s) →
  length (_params (step s c)) = length (_where_parts (step s c))
  ∧ Forall (code_text 1) (_where_parts (step s c)).
Proof.
  intros [Hlen Hok].
  assert (Hext : ∀ bs, Forall (λ cv, accepted cv.2 = true) bs →
            length (_params (extend (map spec_binding bs) s))
            = length (_where_parts (extend (map spec_binding bs) s))
            ∧ Forall (code_text 1)
                (_where_parts (extend (map spec_binding bs) s))).
  { intros bs Hbs. cbn [extend _params _where_parts]. split.
    - rewrite !length_app, !length_fmap. lia.
    - apply Forall_app. split; [done|]. apply Forall_fmap.
      apply Forall_fmap. eapply Forall_impl; [exact Hbs|].
      intros cv Hcv. by apply code_text_spec_binding. }
  destruct c as [|name|columns|colnames organs kinds]; cbn [step].
  - done.
  - cbn [select_cohort push _params _where_parts]. split.
    + rewrite !length_app. simpl. lia.
    + apply Forall_app. split; [done|]. apply Forall_singleton.
      apply code_text_app0; [apply code_text_quote_ident | done].
  - destruct (forallb (λ cv, accepted cv.2) columns) eqn:Hacc.
    + rewrite (filter_accepted _ _ Hacc). cbn [snd]. apply Hext.
      apply Forall_forall. intros cv Hcv. rewrite forallb_forall in Hacc.
      apply Hacc. by apply list_elem_of_In.
    + destruct (filter_stops_at_first_rejected _ s Hacc)
        as (before & col & op & v & after & _ & Hb & _ & ->).
      cbn [snd]. apply Hext. apply Forall_forall. intros cv Hcv.
      rewrite forallb_forall in Hb. apply Hb. by apply list_elem_of_In.
  - done.
Qed.

Lemma run_aligned (cs : list call) (s : store) :
  length (_params s) = length (_where_parts s)
  ∧ Forall (code_text 1) (_where_parts s) →
  length (_params (run cs s)) = placeholders (_build_sql (run cs s)).1.
Proof.
  intros H.
  assert (Hrun : length (_params (run cs s)) = length (_where_parts (run cs s))
                 ∧ Forall (code_text 1) (_where_parts (run cs s))).
  { revert s H. unfold run. induction cs as [|c cs IH]; intros s H; [done|].
    cbn [fold_left]. by apply IH, step_aligned. }
  destruct Hrun as [Hlen Hok]. by rewrite build_placeholders.
Qed.

(** C3: after any sequence of [reset], [select_cohort], [filter] (with
    accepted predicates) and [metrics] calls on a new builder, [_build_sql]
    returns as many parameters as its text has placeholders, and they are
    aligned: the parameter at position [k] is the value bound by the
    binding number [k] of the calls, whose clause holds the placeholder
    that has exactly [k] placeholders before it in the text. *)
Theorem params_match_placeholders (tbl : string) (cols : list string)
    (s0 : store) (cs : list call) :
  init tbl cols = Returned s0 →
  forallb accepted_call cs = true →
  let sql := (_build_sql (run cs s0)).1 in
  let params := (_build_sql (run cs s0)).2 in
  let bs := spec_bindings (_study_col s0) cs [] in
  length params = placeholders sql
  ∧ params = bs.*2
  ∧ ∀ k clause v, bs !! k = Some (clause, v) →
      params !! k = Some v
      ∧ ∃ pre post, sql = pre +:+ clause +:+ post
                    ∧ scan Code pre = (Code, k)
                    ∧ scan Code clause = (Code, 1).
Proof.
  intros (c & _ & ->)%init_Returned Hacc. cbv zeta.
  destruct (run_bindings cs (Store tbl c [] [] None) [] Hacc eq_refl eq_refl)
    as (Hw & Hp & Ht).
  pose proof (spec_bindings_code_text c cs [] Hacc (Forall_nil_2 _)) as Hok.
  cbn [_study_col] in *. unfold _build_sql. cbn [fst snd].
  set (bs := spec_bindings c cs []) in *.
  split; [|split].
  - apply run_aligned. by split.
  - done.
  - intros k clause v Hk. split.
    { rewrite Hp, list_lookup_fmap, Hk. done. }
    rewrite sql_text_head, Hw.
    assert (Hsplit : bs.*1 = take k bs.*1 ++ clause :: drop (S k) bs.*1).
    { symmetry. apply take_drop_middle. by rewrite list_lookup_fmap, Hk. }
    exists (sql_head (table (run cs (Store tbl c [] [] None)))
                     (_select_cols (run cs (Store tbl c [] [] None)))
            +:+ joined_before (take k bs.*1)),
           (joined_after (drop (S k) bs.*1)).
    split; [|split].
    + rewrite Hsplit at 1. rewrite str_app_assoc. f_equal.
      rewrite <- join_split.
      by destruct (take k bs.*1 ++ clause :: drop (S k) bs.*1) eqn:E;
        [destruct (take k bs.*1)|].
    + apply code_text_app0; [apply code_text_sql_head|].
      assert (Hlen : length (take k bs.*1) = k).
      { apply length_take_le. apply lookup_lt_Some in Hk.
        rewrite length_fmap. lia. }
      rewrite <- Hlen at 1. apply code_text_joined_before.
      apply Forall_take, Forall_fmap. done.
    + rewrite Forall_forall in Hok. apply (Hok (clause, v)).
      by eapply list_elem_of_lookup_2.
Qed.

Lemma params_match_placeholders_witness :
  let cols := ["Study"; "ID"; "Is it?"] in
  let s0 := Store "raw" "Study" [] [] None in
  let cs := [Reset; SelectCohort "UK Biobank";
             Filter [("Is it?", PTuple [PStr "like"; PStr "y%"]);
                     ("Sex", PStr "f")];
             Metrics cols None None] in
  init "raw" cols = Returned s0
  ∧ forallb accepted_call cs = true
  ∧ length (_build_sql (run cs s0)).2
    = placeholders (_build_sql (run cs s0)).1.
Proof.
  split; [reflexivity|]. split; [reflexivity|].
  apply (params_match_placeholders "raw" ["Study"; "ID"; "Is it?"]
           (Store "raw" "Study" [] [] None)
           [Reset; SelectCohort "UK Biobank";
            Filter [("Is it?", PTuple [PStr "like"; PStr "y%"]);
                    ("Sex", PStr "f")];
            Metrics ["Study"; "ID"; "Is it?"] None None]);
    reflexivity.
Defined.

(** A question mark in a column name is text of a quoted identifier, not
    a placeholder: counting every question mark would count one more. *)
Example question_mark_in_identifier :
  let s := (filter [("Is it?", PStr "y")] (Store "raw" "Study" [] [] None)).2 in
  placeholders (_build_sql s).1 = 1
  ∧ question_marks (_build_sql s).1 = 2
  ∧ length (_build_sql s).2 = 1.
Proof. done. Qed.

(** ** De-duplication *)

Section dedup.
Implicit Types (l : list string) (x y : string).

Lemma filter_filter (f g : string → bool) l :
  List.filter f (List.filter g l) = List.filter (λ x, g x && f x) l.
Proof.
  induction l as [|a l IH]; [done|]. cbn [List.filter].
  destruct (g a); cbn [List.filter andb]; [destruct (f a)|]; by rewrite IH.
Qed.

Lemma elem_of_filter (f : string → bool) l x :
  x ∈ List.filter f l ↔ x ∈ l ∧ f x = true.
Proof. rewrite !list_elem_of_In. apply filter_In. Qed.

Lemma filter_id (f : string → bool) l :
  (∀ x, x ∈ l → f x = true) → List.filter f l = l.
Proof.
  intros H. apply forallb_filter_id, forallb_forall.
  intros x Hx. by apply H, list_elem_of_In.
Qed.

Lemma dedup_loop_first l (seen : gset string) (ordered : list string) :
  dedup_loop l seen ordered
  = ordered ++ List.filter (λ y, negb (bool_decide (y ∈ seen)))
                           (dedup_first l).
Proof.
  revert seen ordered. induction l as [|c l IH]; intros seen ordered.
  - by rewrite app_nil_r.
  - cbn [dedup_loop dedup_first List.filter].
    case_bool_decide as Hc; cbn [negb]; rewrite IH.
    + f_equal. rewrite filter_filter. apply filter_ext_in.
      intros y _. repeat case_bool_decide; naive_solver.
    + rewrite <- app_assoc. cbn [app]. do 2 f_equal.
      rewrite filter_filter. apply filter_ext. intros y.
      repeat case_bool_decide; set_solver.
Qed.

Lemma dedup_loop_empty l : dedup_loop l ∅ [] = dedup_first l.
Proof.
  rewrite dedup_loop_first. cbn [app]. apply filter_id.
  intros x _. by rewrite bool_decide_eq_false_2 by set_solver.
Qed.

Lemma elem_of_dedup_first l x : x ∈ dedup_first l ↔ x ∈ l.
Proof.
  induction l as [|a l IH]; [done|]. cbn [dedup_first].
  rewrite !elem_of_cons, elem_of_filter, IH, negb_true_iff,
    bool_decide_eq_false.
  destruct (decide (x = a)); naive_solver.
Qed.

Lemma NoDup_dedup_first l : NoDup (dedup_first l).
Proof.
  induction l as [|a l IH]; [constructor|]. cbn [dedup_first].
  apply NoDup_cons. split.
  - rewrite elem_of_filter, negb_true_iff, bool_decide_eq_false.
    naive_solver.
  - by apply NoDup_ListNoDup, List.NoDup_filter, NoDup_ListNoDup.
Qed.

Lemma StronglySorted_filter (R : relation string) (f : string → bool) l :
  StronglySorted R l → StronglySorted R (List.filter f l).
Proof.
  induction 1 as [|a l _ IH Ha]; [constructor|]. cbn [List.filter].
  destruct (f a); [|done]. constructor; [done|].
  rewrite Forall_forall in *. intros y [Hy _]%elem_of_filter. by apply Ha.
Qed.

Lemma StronglySorted_impl (R R' : relation string) l :
  (∀ x y, x ∈ l → y ∈ l → R x y → R' x y) →
  StronglySorted R l → StronglySorted R' l.
Proof.
  intros HR. induction 1 as [|a l _ IH Ha]; constructor.
  - apply IH. intros x y Hx Hy. apply HR; by right.
  - rewrite Forall_forall in *. intros y Hy.
    apply HR; [left | by right | by apply Ha].
Qed.

(** The entries come in the order of their first occurrences. *)
Lemma dedup_first_sorted l :
  StronglySorted (λ x y, first_index x l < first_index y l) (dedup_first l).
Proof.
  induction l as [|a l IH]; [constructor|]. cbn [dedup_first].
  constructor.
  - apply (StronglySorted_impl
             (λ x y, first_index x l < first_index y l)).
    + intros x y [_ Hx]%elem_of_filter [_ Hy]%elem_of_filter Hlt.
      apply negb_true_iff, bool_decide_eq_false in Hx, Hy.
      cbn [first_index]. rewrite !bool_decide_eq_false_2 by done. lia.
    + by apply StronglySorted_filter.
  - apply Forall_forall. intros y [_ Hy]%elem_of_filter.
    apply negb_true_iff, bool_decide_eq_false in Hy.
    cbn [first_index]. rewrite bool_decide_eq_true_2 by done.
    rewrite bool_decide_eq_false_2 by done. lia.
Qed.

(** A duplicate-free front part stays in front, as it is. *)
Lemma dedup_first_app base l :
  NoDup base →
  dedup_first (base ++ l)
  = base ++ List.filter (λ c, negb (str_in c base)) (dedup_first l).
Proof.
  unfold str_in. induction 1 as [|b base Hb _ IH].
  - cbn [app]. symmetry. apply filter_id. intros x _.
    by rewrite bool_decide_eq_false_2 by set_solver.
  - cbn [app dedup_first]. f_equal. rewrite IH, List.filter_app. f_equal.
    + apply filter_id. intros x Hx.
      rewrite negb_true_iff, bool_decide_eq_false. naive_solver.
    + rewrite filter_filter. apply filter_ext. intros y.
      repeat case_bool_decide; set_solver.
Qed.

End dedup.

(** ** Metric column selection *)

Lemma any_token_in_spec (toks : list string) (name : string) :
  any_token_in toks (lower name) = true ↔ spec_group_match toks name.
Proof.
  unfold spec_group_match, any_token_in.
  destruct toks as [|t toks]; [naive_solver|].
  rewrite existsb_exists. split.
  - intros (x & Hx%list_elem_of_In & Hc%contains_occurs). right. eauto.
  - intros [|(x & Hx & Hc)]; [done|]. exists x.
    by rewrite <- list_elem_of_In, contains_occurs.
Qed.

Lemma matches_spec (organs_list kinds_list : list string) (name : string) :
  matches organs_list kinds_list name = true
  ↔ spec_group_match organs_list name ∧ spec_group_match kinds_list name.
Proof.
  unfold matches. cbv zeta.
  by rewrite andb_true_iff, !any_token_in_spec.
Qed.

Lemma add_id_col_spec (cands colnames base_cols : list string) :
  (∀ c, c ∈ cands → c ∉ base_cols) →
  add_id_col cands colnames base_cols
  = base_cols ++ option_list (first_in cands colnames).
Proof.
  induction cands as [|c cands IH]; intros Hdisj.
  - cbn [add_id_col first_in option_list]. by rewrite app_nil_r.
  - cbn [add_id_col first_in].
    assert (Hc : str_in c base_cols = false).
    { apply str_in_false, Hdisj. left. }
    rewrite Hc, andb_true_r. destruct (str_in c colnames); [done|].
    apply IH. intros x Hx. apply Hdisj. by right.
Qed.

Lemma study_not_id (c : string) :
  c ∈ STUDY_CANDIDATES → c ∉ ID_CANDIDATES.
Proof.
  unfold STUDY_CANDIDATES. intros H.
  repeat (apply elem_of_cons in H as [->|H]; [in_literals|]).
  by apply elem_of_nil in H.
Qed.

Lemma base_columns_spec (study : string) (colnames : list string) :
  study ∈ STUDY_CANDIDATES →
  base_columns study colnames
  = (if str_in study colnames then [study] else [])
      ++ option_list (first_in ID_CANDIDATES colnames).
Proof.
  intros Hs%study_not_id. unfold base_columns. apply add_id_col_spec.
  intros c Hc. destruct (str_in study colnames); [|apply not_elem_of_nil].
  intros ->%list_elem_of_singleton. done.
Qed.

Lemma NoDup_base_columns (study : string) (colnames : list string) :
  NoDup (base_columns study colnames).
Proof.
  unfold base_columns.
  assert (Hb : NoDup (if str_in study colnames then [study] else [])).
  { destruct (str_in study colnames); [apply NoDup_singleton | constructor]. }
  revert Hb. generalize (if str_in study colnames then [study] else []).
  induction ID_CANDIDATES as [|c cands IH]; intros base Hb; [done|].
  cbn [add_id_col].
  destruct (str_in c colnames && negb (str_in c base)) eqn:Hc; [|by apply IH].
  apply andb_prop in Hc as [_ Hc%negb_true_iff%str_in_false].
  apply NoDup_app. split; [done|]. split; [|apply NoDup_singleton].
  by intros x Hx ->%list_elem_of_singleton.
Qed.

Lemma metrics_select_cols (colnames : list string)
    (organs kinds : option (list string)) (s : store) :
  _select_cols (metrics colnames organs kinds s)
  = Some (dedup_first
            (base_columns (_study_col s) colnames
             ++ List.filter (matches (tokens organs) (tokens kinds))
                            colnames)).
Proof. unfold metrics. cbn [_select_cols]. by rewrite dedup_loop_empty. Qed.

Lemma run_study_col (tbl : string) (cols : list string) (s0 : store)
    (cs : list call) :
  init tbl cols = Returned s0 → _study_col (run cs s0) ∈ STUDY_CANDIDATES.
Proof.
  intros (c & (before & after & Hc & _) & ->)%init_Returned.
  assert (Hrun : ∀ s, _study_col (run cs s) = _study_col s).
  { unfold run. induction cs as [|x cs IH]; intros s; [done|].
    cbn [fold_left]. rewrite IH. apply step_fixed. }
  rewrite Hrun. cbn [_study_col]. rewrite Hc.
  apply elem_of_app. right. left.
Qed.

(** C2: [metrics] keeps the columns whose lower-cased name contains some
    lower-cased organ token (or there is no organ token) and some
    lower-cased kind token (or there is no kind token), in the order of
    the table, behind the study column and the first identifier
    candidate that the table has.  On the columns "Study", "ID",
    "Liver Volume", "Liver SUVMean", "Kidney Volume", "Notes" with study
    column "Study", organs "Liver" and kinds "Volume", "SUVMean" select
    "Study", "ID", "Liver Volume", "Liver SUVMean", in that order. *)
Theorem metrics_selection (tbl : string) (cols : list string) (s0 : store)
    (cs : list call) (colnames : list string)
    (organs kinds : option (list string)) :
  init tbl cols = Returned s0 →
  let s := run cs s0 in
  (∃ base keep id_col,
     _select_cols (metrics colnames organs kinds s)
     = Some (base ++ List.filter (λ c, negb (str_in c base))
                                 (dedup_first keep))
     ∧ base = (if str_in (_study_col s) colnames then [_study_col s] else [])
                ++ option_list id_col
     ∧ (∀ c, id_col = Some c ↔ first_present ID_CANDIDATES colnames c)
     ∧ keep = List.filter (matches (tokens organs) (tokens kinds)) colnames
     ∧ ∀ c, c ∈ keep
            ↔ c ∈ colnames
              ∧ spec_group_match (tokens organs) c
              ∧ spec_group_match (tokens kinds) c)
  ∧ ∀ parts params sel,
      _select_cols
        (metrics ["Study"; "ID"; "Liver Volume"; "Liver SUVMean";
                  "Kidney Volume"; "Notes"]
                 (Some ["Liver"]) (Some ["Volume"; "SUVMean"])
                 (Store tbl "Study" parts params sel))
      = Some ["Study"; "ID"; "Liver Volume"; "Liver SUVMean"].
Proof.
  intros Hinit. cbv zeta. split; [|done].
  pose proof (run_study_col _ _ _ cs Hinit) as Hstudy.
  exists (base_columns (_study_col (run cs s0)) colnames),
         (List.filter (matches (tokens organs) (tokens kinds)) colnames),
         (first_in ID_CANDIDATES colnames).
  split; [|split; [|split; [|split]]].
  - rewrite metrics_select_cols, dedup_first_app; [done|].
    apply NoDup_base_columns.
  - by apply base_columns_spec.
  - intros c. apply first_in_Some.
  - done.
  - intros c. by rewrite elem_of_filter, matches_spec.
Qed.

Lemma metrics_selection_witness :
  let cols := ["ID"; "Study"; "Liver Volume"; "LIVER suvmean"; "Spleen"] in
  let s0 := Store "raw" "Study" [] [] None in
  init "raw" cols = Returned s0
  ∧ _select_cols (metrics cols (Some ["liver"]) None
                          (run [SelectCohort "UK Biobank"] s0))
    = Some ["Study"; "ID"; "Liver Volume"; "LIVER suvmean"].
Proof.
  split; [reflexivity|].
  destruct (metrics_selection "raw"
              ["ID"; "Study"; "Liver Volume"; "LIVER suvmean"; "Spleen"]
              (Store "raw" "Study" [] [] None) [SelectCohort "UK Biobank"]
              ["ID"; "Study"; "Liver Volume"; "LIVER suvmean"; "Spleen"]
              (Some ["liver"]) None eq_refl)
    as [(base & keep & id_col & -> & -> & Hid & -> & _) _].
  assert (id_col = Some "ID") as ->.
  { apply Hid. exists ["Image/Patient ID"; "Patient ID"; "Image ID"], [].
    split; [done|]. split; [in_literals|].
    intros x Hx.
    repeat (apply elem_of_cons in Hx as [->|Hx]; [in_literals|]).
    by apply elem_of_nil in Hx. }
  reflexivity.
Defined.

(** C5: after a [metrics] call the selection has no duplicates, holds
    the entries of the base columns followed by the kept columns in the
    order of their first occurrences, with the study column and the
    identifier column in front; and the call replaces the selection: a
    second call leaves what it would have left without the first. *)
Theorem selected_columns_ordered (tbl : string) (cols : list string)
    (s0 : store) (cs : list call) (colnames : list string)
    (organs kinds : option (list string)) :
  init tbl cols = Returned s0 →
  let s := run cs s0 in
  let all := base_columns (_study_col s) colnames
             ++ List.filter (matches (tokens organs) (tokens kinds))
                            colnames in
  (∃ sel,
     _select_cols (metrics colnames organs kinds s) = Some sel
     ∧ NoDup sel
     ∧ (∀ x, x ∈ sel ↔ x ∈ all)
     ∧ StronglySorted (λ x y, first_index x all < first_index y all) sel
     ∧ ∃ rest,
         sel = (if str_in (_study_col s) colnames then [_study_col s] else [])
                 ++ option_list (first_in ID_CANDIDATES colnames) ++ rest)
  ∧ ∀ colnames' organs' kinds',
      metrics colnames' organs' kinds' (metrics colnames organs kinds s)
      = metrics colnames' organs' kinds' s.
Proof.
  intros Hinit. cbv zeta. split; [|done].
  pose proof (run_study_col _ _ _ cs Hinit) as Hstudy.
  eexists. split; [apply metrics_select_cols|].
  split; [apply NoDup_dedup_first|].
  split; [intros x; apply elem_of_dedup_first|].
  split; [apply dedup_first_sorted|].
  rewrite dedup_first_app by apply NoDup_base_columns.
  rewrite (base_columns_spec _ _ Hstudy), <- app_assoc. eauto.
Qed.

Lemma selected_columns_ordered_witness :
  let cols := ["ID"; "Study"; "Liver Volume"; "Liver SUVMean"] in
  let s0 := Store "raw" "Study" [] [] None in
  init "raw" cols = Returned s0
  ∧ ∀ colnames' organs' kinds',
      metrics colnames' organs' kinds'
              (metrics cols (Some ["Liver"]) None (run [Reset] s0))
      = metrics colnames' organs' kinds' (run [Reset] s0).
Proof.
  split; [reflexivity|].
  apply (selected_columns_ordered "raw"
           ["ID"; "Study"; "Liver Volume"; "Liver SUVMean"]
           (Store "raw" "Study" [] [] None) [Reset]
           ["ID"; "Study"; "Liver Volume"; "Liver SUVMean"]
           (Some ["Liver"]) None eq_refl).
Defined.

(** ** The parameter list as an object *)

Section objects.
Implicit Types (h : gmap positive (list pyval)) (o : Obj.cohort_obj).

Lemma alloc_fresh (xs : list pyval) h : (Obj.alloc xs h).1 ∉ dom h.
Proof. unfold Obj.alloc. cbn [fst]. apply is_fresh. Qed.

Lemma alloc_lookup (xs : list pyval) h :
  (Obj.alloc xs h).2 !!! (Obj.alloc xs h).1 = xs.
Proof. unfold Obj.alloc. cbn [fst snd]. apply lookup_total_insert_eq. Qed.

Lemma alloc_other (xs : list pyval) h (l : positive) :
  l ∈ dom h → (Obj.alloc xs h).2 !!! l = h !!! l.
Proof.
  intros Hl. unfold Obj.alloc. cbn [snd].
  apply lookup_total_insert_ne. intros Heq. rewrite <- Heq in Hl.
  by apply (is_fresh (dom h)).
Qed.

(** The object-level calls do what the state-passing calls do. *)
Lemma view_push (part : string) (v : pyval) h o :
  Obj.view (Obj.push part v h o).2 (Obj.push part v h o).1
  = push part v (Obj.view h o).
Proof.
  unfold Obj.view, Obj.push, push. cbn. f_equal.
  apply lookup_total_insert_eq.
Qed.

Lemma view_select_cohort (name : string) h o :
  Obj.view (Obj.select_cohort name h o).2 (Obj.select_cohort name h o).1
  = select_cohort name (Obj.view h o).
Proof. apply view_push. Qed.

Lemma view_reset h o :
  Obj.view (Obj.reset h o).2 (Obj.reset h o).1 = reset (Obj.view h o).
Proof.
  unfold Obj.view, Obj.reset, reset, Obj.alloc. cbn. f_equal.
  apply lookup_total_insert_eq.
Qed.

Lemma view_build h o :
  Obj.o_params o ∈ dom h →
  Obj.view (Obj._build_sql h o).2 o = Obj.view h o.
Proof.
  intros Hp. unfold Obj.view, Obj._build_sql.
  destruct (Obj.alloc (h !!! Obj.o_params o) h) as [l h'] eqn:Ha.
  cbn [snd]. f_equal.
  change h' with (l, h').2. rewrite <- Ha. by apply alloc_other.
Qed.

Lemma build_result h o :
  ((Obj._build_sql h o).1.1,
   (Obj._build_sql h o).2 !!! (Obj._build_sql h o).1.2)
  = _build_sql (Obj.view h o).
Proof.
  unfold Obj._build_sql, _build_sql, Obj.view.
  pose proof (alloc_lookup (h !!! Obj.o_params o) h) as Ha.
  destruct (Obj.alloc (h !!! Obj.o_params o) h) as [l h'].
  cbn [fst snd table _where_parts _select_cols _params] in *. by rewrite Ha.
Qed.

Lemma build_loc_fresh h o : (Obj._build_sql h o).1.2 ∉ dom h.
Proof.
  unfold Obj._build_sql.
  pose proof (alloc_fresh (h !!! Obj.o_params o) h) as Ha.
  by destruct (Obj.alloc (h !!! Obj.o_params o) h) as [l h'].
Qed.

Lemma build_dom h o :
  dom (Obj._build_sql h o).2 = {[(Obj._build_sql h o).1.2]} ∪ dom h.
Proof. unfold Obj._build_sql, Obj.alloc. cbn. apply dom_insert_L. Qed.

End objects.

(** C7: [_build_sql] depends on the builder's state only and does not
    change it: a second call returns the same text and the same
    parameters.  The parameters come in a new list: what the caller then
    does to that list changes neither the builder's state nor the result
    of a later [_build_sql], and what the builder appends later does not
    show in it. *)
Theorem build_sql_pure_fresh_copy (h : gmap positive (list pyval))
    (o : Obj.cohort_obj) :
  Obj.o_params o ∈ dom h →
  let r1 := Obj._build_sql h o in
  let r2 := Obj._build_sql (Obj.heap_of r1) o in
  (Obj.sql_of r1, Obj.params_of r1) = _build_sql (Obj.view h o)
  ∧ (Obj.sql_of r2, Obj.params_of r2) = (Obj.sql_of r1, Obj.params_of r1)
  ∧ Obj.view (Obj.heap_of r1) o = Obj.view h o
  ∧ Obj.loc_of r1 ≠ Obj.o_params o
  ∧ (Obj.loc_of r1 ∉ dom h)
  ∧ Obj.loc_of r2 ≠ Obj.loc_of r1
  ∧ (∀ xs,
       let h' := Obj.caller_mutates (Obj.loc_of r1) xs (Obj.heap_of r1) in
       let r3 := Obj._build_sql h' o in
       Obj.view h' o = Obj.view h o
       ∧ (Obj.sql_of r3, Obj.params_of r3)
         = (Obj.sql_of r1, Obj.params_of r1))
  ∧ ∀ part v,
      snd (Obj.push part v (Obj.heap_of r1) o) !!! Obj.loc_of r1
      = Obj.params_of r1.
Proof.
  intros Hp. cbv zeta. unfold Obj.sql_of, Obj.params_of, Obj.loc_of,
    Obj.heap_of.
  pose proof (build_loc_fresh h o) as Hfresh.
  pose proof (view_build h o Hp) as Hview.
  assert (Hne : (Obj._build_sql h o).1.2 ≠ Obj.o_params o).
  { intros Heq. by rewrite Heq in Hfresh. }
  split; [apply build_result|].
  split; [by rewrite !build_result, Hview|].
  split; [done|]. split; [done|]. split; [done|].
  split; [|split].
  - intros Heq. apply (build_loc_fresh (Obj._build_sql h o).2 o).
    rewrite Heq, build_dom. set_solver.
  - intros xs.
    assert (Hv : Obj.view (Obj.caller_mutates (Obj._build_sql h o).1.2 xs
                             (Obj._build_sql h o).2) o = Obj.view h o).
    { rewrite <- Hview. unfold Obj.view, Obj.caller_mutates. f_equal.
      by apply lookup_total_insert_ne. }
    split; [done|]. by rewrite !build_result, Hv.
  - intros part v. unfold Obj.push. cbn [snd].
    apply lookup_total_insert_ne. done.
Qed.

Lemma build_sql_pure_fresh_copy_witness :
  let h : gmap positive (list pyval) :=
    {[ 1%positive := [PStr "UK Biobank"] ]} in
  let o := Obj.CohortObj "raw" "Study" [_quote_ident "Study" +:+ " = ?"]
                         1%positive None in
  let r1 := Obj._build_sql h o in
  Obj.o_params o ∈ dom h
  ∧ ∀ xs,
      Obj.view (Obj.caller_mutates (Obj.loc_of r1) xs (Obj.heap_of r1)) o
      = Obj.view h o.
Proof.
  intros h o r1.
  assert (Hdom : Obj.o_params o ∈ dom h).
  { unfold h. rewrite dom_singleton_L. by apply elem_of_singleton. }
  split; [exact Hdom|].
  intros xs. apply (build_sql_pure_fresh_copy h o Hdom).
Defined.

(** ** Upsert *)

Section upsert.
Import Etl.
Implicit Types (d : gmap string relation) (t : relation)
  (r i : list cell) (id_cols : list string).




(** The [INSERT] goes by position: a batch with the columns of the table
    in another order puts its cells under the wrong names, which is why
    the batch is taken with the column list of the table below. *)
Example insert_is_positional :
  let t := Relation ["Image/Patient ID"; "Study Name"] [] in
  let df_new := Relation ["Study Name"; "Image/Patient ID"]
                         [[CText "A"; CText "P1"]] in
  upsert_rows_from_csv df_new {[ "raw" := t ]} "raw"
                       ["Image/Patient ID"; "Study Name"]
  = Done (<["raw" := Relation ["Image/Patient ID"; "Study Name"]
                              [[CText "A"; CText "P1"]]]>
            {[ "raw" := t ]}).
Proof. reflexivity. Qed.

End upsert.



(** * Further properties of the code *)

(** ** Quoting *)

(** X1: a quoted identifier is its name between two delimiters with the
    quotes of the name doubled; halving the doubled quotes gives the name
    back, so two names have the same quoted form only when they are the
    same name. *)
Theorem quote_ident_reads_back (a b : string) :
  (∃ body,
     String.list_ascii_of_string (_quote_ident a) = dq :: body ++ [dq]
     ∧ undouble body = String.list_ascii_of_string a)
  ∧ (_quote_ident a = _quote_ident b ↔ a = b).
Proof.
  split.
  - exists (spec_doubled (String.list_ascii_of_string a)).
    split; [apply quote_ident_chars | apply undouble_doubled].
  - split; [|by intros ->].
    intros H. apply (f_equal String.list_ascii_of_string) in H.
    rewrite !quote_ident_chars in H. injection H as H.
    apply app_inv_tail in H. apply (f_equal undouble) in H.
    rewrite !undouble_doubled in H.
    rewrite <- (String.string_of_list_ascii_of_string a),
            <- (String.string_of_list_ascii_of_string b). by rewrite H.
Qed.

(** X2: whatever the name, a quoted identifier is read as one
    identifier: it holds no placeholder, and the text that follows it is
    read as if the identifier were not there. *)
Theorem quote_ident_closes (name rest : string) :
  placeholders (_quote_ident name) = 0
  ∧ scan Code (_quote_ident name +:+ rest) = scan Code rest.
Proof.
  pose proof (code_text_quote_ident name) as H. unfold code_text in H.
  split; [unfold placeholders; by rewrite H|].
  rewrite scan_app, H. cbn [fst snd]. by destruct (scan Code rest).
Qed.

(** ** Calls of the builder and how they combine *)

Lemma run_fixed (cs : list call) (s : store) :
  table (run cs s) = table s ∧ _study_col (run cs s) = _study_col s.
Proof.
  revert s. unfold run. induction cs as [|c cs IH]; intros s; [done|].
  cbn [fold_left]. destruct (IH (step s c)) as [-> ->]. apply step_fixed.
Qed.

(** X3: [select_cohort] is an equality filter on the study column, and
    it adds to what is there: after [reset], one call gives the
    condition [quote(study) = ?] with the name as the only parameter,
    and a second call adds a second condition instead of replacing the
    first. *)
Theorem select_cohort_accumulates (s : store) (n1 n2 : string) :
  filter [(_study_col s, PStr n1)] s = (Returned (), select_cohort n1 s)
  ∧ _build_sql (select_cohort n1 (reset s))
    = ("SELECT * FROM " +:+ _quote_ident (table s) +:+ " WHERE "
         +:+ _quote_ident (_study_col s) +:+ " = ?",
       [PStr n1])
  ∧ _build_sql (select_cohort n2 (select_cohort n1 (reset s)))
    = ("SELECT * FROM " +:+ _quote_ident (table s) +:+ " WHERE "
         +:+ _quote_ident (_study_col s) +:+ " = ? AND "
         +:+ _quote_ident (_study_col s) +:+ " = ?",
       [PStr n1; PStr n2]).
Proof.
  split; [done|]. split.
  - done.
  - unfold _build_sql, sql_text. cbn. unfold join. cbn [String.concat].
    by rewrite !str_app_assoc.
Qed.

(** X4: one [filter] call with the predicates [a] followed by [b] is the
    call with [a] followed by the call with [b] when [a] is accepted;
    when [a] has a rejected predicate, [b] is never looked at. *)
Theorem filter_calls_compose (a b : list (string * pyval)) (s : store) :
  filter (a ++ b) s
  = if forallb (λ cv, accepted cv.2) a
    then filter b (filter a s).2
    else filter a s.
Proof.
  destruct (forallb (λ cv, accepted cv.2) a) eqn:Hacc.
  - by rewrite (filter_app_accepted _ _ _ Hacc), (filter_accepted _ _ Hacc).
  - destruct (first_rejected a Hacc)
      as (before & col & val & after & -> & Hb & Hr).
    rewrite <- app_assoc, <- app_comm_cons.
    rewrite !(filter_app_accepted _ _ _ Hb).
    destruct (filter_cons_rejected col val (after ++ b)
                (extend (map spec_binding before) s) Hr)
      as (op & v & -> & _ & ->).
    destruct (filter_cons_rejected col (PTuple [op; v]) after
                (extend (map spec_binding before) s) Hr)
      as (op' & v' & [= <- <-] & _ & ->). done.
Qed.

Lemma upper_char_idem (c : ascii) : upper_char (upper_char c) = upper_char c.
Proof. by destruct c as [[] [] [] [] [] [] [] []]. Qed.

Lemma lower_upper_char (c : ascii) : lower_char (upper_char c) = lower_char c.
Proof. by destruct c as [[] [] [] [] [] [] [] []]. Qed.

Lemma upper_idem (s : string) : upper (upper s) = upper s.
Proof.
  unfold upper. induction s as [|c s IH]; [done|].
  cbn [str_map]. by rewrite upper_char_idem, IH.
Qed.

Lemma lower_upper (s : string) : lower (upper s) = lower s.
Proof.
  unfold lower, upper. induction s as [|c s IH]; [done|].
  cbn [str_map]. by rewrite lower_upper_char, IH.
Qed.

(** X5: the operator of a comparison is read without regard to case:
    written in any case it is accepted or rejected as its upper-case
    form is, and it leaves the same clause and the same builder. *)
Theorem operator_case_insensitive (col op : string) (v : pyval)
    (rest : list (string * pyval)) (s : store) :
  accepted (PTuple [PStr op; v]) = accepted (PTuple [PStr (upper op); v])
  ∧ spec_binding (col, PTuple [PStr op; v])
    = spec_binding (col, PTuple [PStr (upper op); v])
  ∧ (filter ((col, PTuple [PStr op; v]) :: rest) s).2
    = (filter ((col, PTuple [PStr (upper op); v]) :: rest) s).2.
Proof.
  unfold spec_binding. cbn [accepted filter fst snd str].
  rewrite upper_idem. split; [done|]. split; [done|].
  by destruct (str_in (upper op) _ALLOWED_OPS).
Qed.

(** X6: column selection and filtering do not interfere: [metrics]
    before or after a [filter] call (accepted or rejected) or a
    [select_cohort] call gives the same builder and the same outcome. *)
Theorem metrics_commutes_with_filters (colnames : list string)
    (organs kinds : option (list string))
    (columns : list (string * pyval)) (name : string) (s : store) :
  filter columns (metrics colnames organs kinds s)
  = ((filter columns s).1, metrics colnames organs kinds (filter columns s).2)
  ∧ select_cohort name (metrics colnames organs kinds s)
    = metrics colnames organs kinds (select_cohort name s).
Proof.
  split; [|done].
  assert (Hpush : ∀ part v s',
            push part v (metrics colnames organs kinds s')
            = metrics colnames organs kinds (push part v s')) by done.
  revert s. induction columns as [|[col val] columns IH]; intros s; [done|].
  destruct val as [| | | |items|]; cbn [filter]; rewrite ?Hpush, ?IH;
    try done.
  destruct items as [|op [|v [|w items]]]; rewrite ?Hpush, ?IH; try done.
  by destruct (str_in (upper (str op)) _ALLOWED_OPS).
Qed.

(** X7: [reset] forgets what was configured: after any calls it leaves
    the builder that [reset] leaves at once, so the query that follows
    depends on the table alone. *)
Theorem reset_forgets (cs : list call) (s : store) :
  reset (run cs s) = reset s
  ∧ run (cs ++ [Reset]) s = reset s
  ∧ _build_sql (run (cs ++ [Reset]) s)
    = ("SELECT * FROM " +:+ _quote_ident (table s) +:+ " WHERE 1=1", []).
Proof.
  assert (H : reset (run cs s) = reset s).
  { unfold reset. by destruct (run_fixed cs s) as [-> ->]. }
  assert (H' : run (cs ++ [Reset]) s = reset s).
  { unfold run in *. by rewrite fold_left_app. }
  split; [done|]. split; [done|]. by rewrite H'.
Qed.

(** ** Column selection *)

Lemma add_id_col_within (cands colnames base_cols : list string) (x : string) :
  x ∈ add_id_col cands colnames base_cols → x ∈ base_cols ∨ x ∈ colnames.
Proof.
  induction cands as [|c cands IH]; cbn [add_id_col]; [by left|].
  destruct (str_in c colnames) eqn:Hc; cbn [andb]; [|done].
  destruct (negb (str_in c base_cols)); [|done].
  intros [Hx | ->%list_elem_of_singleton]%elem_of_app; [by left|].
  right. by apply str_in_true.
Qed.

Lemma base_columns_within (study : string) (colnames : list string)
    (x : string) :
  x ∈ base_columns study colnames → x ∈ colnames.
Proof.
  unfold base_columns. intros [Hx|Hx]%add_id_col_within; [|done].
  destruct (str_in study colnames) eqn:Hs; [|by apply elem_of_nil in Hx].
  apply list_elem_of_singleton in Hx as ->. by apply str_in_true.
Qed.

(** X8: [metrics] never selects a column that the table does not have:
    every selected name, the study column and the identifier column
    included, is one of the column names read at the call. *)
Theorem selection_within_table (colnames : list string)
    (organs kinds : option (list string)) (s : store) :
  ∃ sel, _select_cols (metrics colnames organs kinds s) = Some sel
         ∧ ∀ x, x ∈ sel → x ∈ colnames.
Proof.
  eexists. split; [apply metrics_select_cols|].
  intros x [Hx|Hx]%elem_of_dedup_first%elem_of_app.
  - by apply base_columns_within in Hx.
  - by apply elem_of_filter in Hx as [Hx _].
Qed.

Lemma dedup_first_NoDup (l : list string) : NoDup l → dedup_first l = l.
Proof.
  induction 1 as [|x l Hx _ IH]; [done|]. cbn [dedup_first].
  rewrite IH. f_equal. apply filter_id. intros y Hy.
  rewrite negb_true_iff, bool_decide_eq_false. by intros ->.
Qed.

(** X9: without organ and kind tokens, [metrics] selects every column of
    the table exactly once (the study and identifier columns moved to
    the front), when the column names of the table are distinct. *)
Theorem no_tokens_selects_every_column (colnames : list string)
    (organs kinds : option (list string)) (s : store) :
  tokens organs = [] → tokens kinds = [] → NoDup colnames →
  ∃ sel, _select_cols (metrics colnames organs kinds s) = Some sel
         ∧ sel ≡ₚ colnames.
Proof.
  intros Ho Hk Hnd. eexists. split; [apply metrics_select_cols|].
  rewrite Ho, Hk. change (matches [] []) with (λ _ : string, true).
  rewrite filter_true. apply NoDup_Permutation.
  - apply NoDup_dedup_first.
  - done.
  - intros x. rewrite elem_of_dedup_first, elem_of_app. split; [|by right].
    intros [Hx|Hx]; [by apply base_columns_within in Hx | done].
Qed.

Lemma no_tokens_selects_every_column_witness :
  let colnames := ["Liver Volume"; "ID"; "Study"] in
  let s := Store "raw" "Study" [] [] None in
  (tokens (Some []) = [] ∧ tokens None = [] ∧ NoDup colnames)
  ∧ ∃ sel, _select_cols (metrics colnames (Some []) None s) = Some sel
           ∧ sel ≡ₚ colnames.
Proof.
  intros colnames s.
  assert (Hnd : NoDup colnames).
  { apply (bool_decide_unpack _). reflexivity. }
  split; [by repeat split|].
  apply (no_tokens_selects_every_column colnames (Some []) None s
           eq_refl eq_refl Hnd).
Defined.

Lemma any_token_in_map_upper (toks : list string) (n : string) :
  any_token_in (map upper toks) n = any_token_in toks n.
Proof.
  assert (H : ∀ l, existsb (λ t, contains (lower t) n) (map upper l)
                   = existsb (λ t, contains (lower t) n) l).
  { induction l as [|x l IH]; [done|].
    cbn [map existsb]. by rewrite lower_upper, IH. }
  destruct toks as [|t toks]; [done|]. apply (H (t :: toks)).
Qed.

Lemma tokens_map_upper (arg : option (list string)) :
  tokens (map upper <$> arg) = map upper (tokens arg).
Proof. destruct arg as [[|t ts]|]; reflexivity. Qed.

(** X10: tokens and column names are compared without regard to case:
    upper-casing the organ tokens, the kind tokens or a column name
    changes neither the test of a column nor the selection. *)
Theorem token_match_ignores_case (colnames : list string)
    (organs kinds : option (list string)) (name : string) (s : store) :
  matches (tokens organs) (tokens kinds) (upper name)
  = matches (tokens organs) (tokens kinds) name
  ∧ matches (map upper (tokens organs)) (map upper (tokens kinds)) name
    = matches (tokens organs) (tokens kinds) name
  ∧ metrics colnames (map upper <$> organs) (map upper <$> kinds) s
    = metrics colnames organs kinds s.
Proof.
  assert (Hm : ∀ n, matches (map upper (tokens organs))
                            (map upper (tokens kinds)) n
                    = matches (tokens organs) (tokens kinds) n).
  { intros n. unfold matches. by rewrite !any_token_in_map_upper. }
  split; [|split; [apply Hm|]].
  - unfold matches. by rewrite lower_upper.
  - unfold metrics. rewrite !tokens_map_upper.
    by rewrite (filter_ext _ _ Hm).
Qed.

Lemma contains_empty (n : string) : contains "" n = true.
Proof. destruct n; cbn [contains]; by rewrite prefix_nil. Qed.

(** X11: the empty string is a token that every column name contains:
    a token list that holds it passes every column, as no token list
    does. *)
Theorem empty_token_matches_all (colnames : list string)
    (organs kinds : option (list string)) (s : store) :
  "" ∈ tokens organs →
  (∀ name, any_token_in (tokens organs) (lower name) = true)
  ∧ metrics colnames organs kinds s = metrics colnames None kinds s.
Proof.
  intros Hin.
  assert (Hany : ∀ n, any_token_in (tokens organs) n = true).
  { intros n. unfold any_token_in.
    destruct (tokens organs) as [|t ts]; [done|].
    apply existsb_exists. exists "". split; [by apply list_elem_of_In|].
    apply contains_empty. }
  split; [intros name; apply Hany|].
  unfold metrics. cbv zeta.
  rewrite (filter_ext (matches (tokens organs) (tokens kinds))
                      (matches (tokens None) (tokens kinds))); [done|].
  intros n. unfold matches. by rewrite Hany.
Qed.

Lemma empty_token_matches_all_witness :
  let colnames := ["Study"; "Liver Volume"; "Notes"] in
  let s := Store "raw" "Study" [] [] None in
  "" ∈ tokens (Some ["Liver"; ""])
  ∧ metrics colnames (Some ["Liver"; ""]) None s
    = metrics colnames None None s.
Proof.
  intros colnames s.
  assert (Hin : "" ∈ tokens (Some ["Liver"; ""])) by in_literals.
  split; [exact Hin|].
  apply (empty_token_matches_all colnames (Some ["Liver"; ""]) None s Hin).
Defined.

(** ** Consistency of the builder after any calls *)

(** X12: whatever calls were made on a new builder, rejected [filter]
    calls that the caller caught included, the two lists have the same
    length and the assembled text is complete SQL text with exactly one
    placeholder per parameter: no quoted identifier or literal is left
    open at its end. *)
Theorem aligned_after_any_calls (tbl : string) (cols : list string)
    (s0 : store) (cs : list call) :
  init tbl cols = Returned s0 →
  length (_where_parts (run cs s0)) = length (_params (run cs s0))
  ∧ scan Code (_build_sql (run cs s0)).1
    = (Code, length (_build_sql (run cs s0)).2).
Proof.
  intros (c & _ & ->)%init_Returned.
  assert (Hrun : ∀ s,
            length (_params s) = length (_where_parts s)
            ∧ Forall (code_text 1) (_where_parts s) →
            length (_params (run cs s)) = length (_where_parts (run cs s))
            ∧ Forall (code_text 1) (_where_parts (run cs s))).
  { unfold run. induction cs as [|x cs IH]; intros s H; [done|].
    cbn [fold_left]. by apply IH, step_aligned. }
  destruct (Hrun (Store tbl c [] [] None)) as [Hlen Hok]; [by split|].
  split; [done|]. unfold _build_sql. cbn [fst snd].
  rewrite sql_text_head, Hlen.
  apply (code_text_app0 _ _ _ (code_text_sql_head _ _)
           (code_text_join _ Hok)).
Qed.

Lemma aligned_after_any_calls_witness :
  let cols := ["Study"; "Age"] in
  let s0 := Store "raw" "Study" [] [] None in
  let cs := [Filter [("Sex", PStr "f"); ("Age", PTuple [PStr "~"; PInt 70])];
             SelectCohort "UK Biobank"] in
  init "raw" cols = Returned s0
  ∧ length (_where_parts (run cs s0)) = length (_params (run cs s0))
  ∧ scan Code (_build_sql (run cs s0)).1
    = (Code, length (_build_sql (run cs s0)).2).
Proof.
  intros cols s0 cs. split; [reflexivity|].
  apply (aligned_after_any_calls "raw" cols s0 cs). reflexivity.
Defined.

(** ** Upsert and append on the table *)

Section tables.
Import Etl.
Implicit Types (d : gmap string relation) (t df : relation)
  (r i : list cell) (ids : list string).



























End tables.

(** ** The one-call query and the builder *)

Section wrappers.
Implicit Types (cols : list string) (fs : list (string * pyval)).

Lemma wrapper_filter_loop fs (where_parts : list string)
    (params : list pyval) :
  Wrappers.filter_loop fs where_parts params
  = (where_parts ++ (Wrappers.binding <$> fs).*1,
     params ++ (Wrappers.binding <$> fs).*2).
Proof.
  revert where_parts params.
  induction fs as [|[col val] fs IH]; intros where_parts params.
  - by rewrite !app_nil_r.
  - assert (Hstep : Wrappers.filter_loop ((col, val) :: fs) where_parts params
                    = Wrappers.filter_loop fs
                        (where_parts ++ [(Wrappers.binding (col, val)).1])
                        (params ++ [(Wrappers.binding (col, val)).2])).
    { unfold Wrappers.binding. cbn [Wrappers.filter_loop fst snd].
      destruct val as [| | | |items|]; try done.
      by destruct items as [|op [|v [|w items]]]. }
    rewrite Hstep, IH, <- !app_assoc. done.
Qed.

Lemma study_col_cases cols (c : string) :
  Wrappers.study_col cols = Some c →
  c ∈ cols ∧ (c = "Study Name" ∨ c = "Study").
Proof.
  unfold Wrappers.study_col.
  destruct (str_in "Study Name" cols) eqn:H1.
  - intros [= <-]. split; [by apply str_in_true | by left].
  - destruct (str_in "Study" cols) eqn:H2; [|done].
    intros [= <-]. split; [by apply str_in_true | by right].
Qed.

Lemma query_cohort_returned cols (study_name table : string)
    (filters : option (list (string * pyval)))
    (organs kinds : option (list string)) (limit : option Z) (c : string) :
  Wrappers.study_col cols = Some c →
  Wrappers.query_cohort cols study_name table filters organs kinds limit
  = Returned
      ("SELECT " +:+ Wrappers.select_sql cols c organs kinds
         +:+ " FROM " +:+ table +:+ " WHERE "
         +:+ join " AND "
               ((Wrappers.plain_quote c +:+ " = ?")
                  :: (Wrappers.binding <$> default [] filters).*1)
         +:+ Wrappers.limit_sql limit,
       PStr study_name :: (Wrappers.binding <$> default [] filters).*2).
Proof.
  unfold Wrappers.query_cohort. intros ->. by rewrite wrapper_filter_loop.
Qed.


Lemma str_length_app (s t : string) :
  String.length (s +:+ t) = String.length s + String.length t.
Proof.
  induction s as [|c s IH]; [done|]. rewrite str_app_cons. simpl.
  by rewrite IH.
Qed.

Lemma replace_dq_length (name : string) :
  String.length name
  ≤ String.length (replace (str1 dq) (String dq (str1 dq)) name)
  ∧ (has_char dq name = true →
     String.length name
     < String.length (replace (str1 dq) (String dq (str1 dq)) name)).
Proof.
  induction name as [|c name [IH1 IH2]]; [done|].
  rewrite replace_char_cons, str_length_app. cbn [has_char String.length].
  case_bool_decide as Hc; cbn [orb str1 String.length]; [lia|].
  split; [lia|]. intros H%IH2. lia.
Qed.

Lemma replace_dq_none (name : string) :
  has_char dq name = false →
  replace (str1 dq) (String dq (str1 dq)) name = name.
Proof.
  induction name as [|c name IH]; [done|]. cbn [has_char].
  rewrite replace_char_cons. case_bool_decide; [done|].
  cbn [orb]. intros ->%IH. done.
Qed.

(** X21: the plain quoting of [query_cohort] gives the quoted identifier
    of the builder exactly for the names without a double quote. *)
Theorem plain_quote_safe_iff (name : string) :
  Wrappers.plain_quote name = _quote_ident name
  ↔ has_char dq name = false.
Proof.
  unfold Wrappers.plain_quote, _quote_ident. split.
  - intros H. apply (f_equal String.length) in H.
    rewrite !str_length_app in H.
    destruct (has_char dq name) eqn:Hd; [|done].
    destruct (replace_dq_length name) as [_ Hlt].
    specialize (Hlt Hd). lia.
  - intros H. by rewrite (replace_dq_none _ H).
Qed.

Lemma plain_predicate_binding (cv : string * pyval) :
  Wrappers.plain_predicate cv = true →
  accepted cv.2 = true ∧ spec_binding cv = Wrappers.binding cv.
Proof.
  destruct cv as [col val].
  unfold Wrappers.plain_predicate, spec_binding, Wrappers.binding.
  cbn [fst snd].
  intros [Hq Hop]%andb_prop.
  apply negb_true_iff, replace_dq_none in Hq.
  assert (Hcol : _quote_ident col = Wrappers.plain_quote col).
  { unfold _quote_ident, Wrappers.plain_quote. by rewrite Hq. }
  rewrite Hcol.
  destruct val as [| | | |items|]; try done.
  destruct items as [|op [|v [|w items]]]; try done.
  destruct op as [| | |o| |]; try done.
  cbn [accepted str]. apply str_in_true in Hop. unfold _ALLOWED_OPS in Hop.
  repeat (apply elem_of_cons in Hop as [->|Hop]; [done|]).
  by apply elem_of_nil in Hop.
Qed.

(** X22: on a table whose study column both find, and for predicates
    with no double quote in the column name and an allowed operator as
    it is written, [query_cohort] and the builder (after [reset],
    [select_cohort] and [filter]) give the same conditions and the same
    parameters; the two texts differ in the quoting of the table name
    alone. *)
Theorem query_cohort_agrees_with_builder cols (study_name tbl : string)
    fs (s : store) :
  Wrappers.study_col cols = Some (_study_col s) →
  forallb Wrappers.plain_predicate fs = true →
  let r := filter fs (select_cohort study_name (reset s)) in
  r.1 = Returned ()
  ∧ Wrappers.query_cohort cols study_name tbl (Some fs) None None None
    = Returned ("SELECT * FROM " +:+ tbl +:+ " WHERE "
                  +:+ where_sql (_where_parts r.2),
                _params r.2)
  ∧ _build_sql r.2
    = ("SELECT * FROM " +:+ _quote_ident (table s) +:+ " WHERE "
         +:+ where_sql (_where_parts r.2),
       _params r.2).
Proof.
  intros Hstudy Hplain. cbv zeta.
  assert (Hacc : forallb (λ cv, accepted cv.2) fs = true).
  { apply forallb_forall. intros cv Hcv. rewrite forallb_forall in Hplain.
    by apply plain_predicate_binding, Hplain. }
  assert (Hbind : map spec_binding fs = Wrappers.binding <$> fs).
  { apply map_ext_in. intros cv Hcv. rewrite forallb_forall in Hplain.
    by apply plain_predicate_binding, Hplain. }
  rewrite (filter_accepted _ _ Hacc). cbn [fst snd].
  split; [done|]. split; [|done].
  rewrite (query_cohort_returned _ _ _ _ _ _ _ _ Hstudy).
  cbn [extend select_cohort reset push _where_parts _params _study_col
       default app].
  rewrite Hbind.
  assert (Hq : _quote_ident (_study_col s)
               = Wrappers.plain_quote (_study_col s)).
  { by apply study_col_cases in Hstudy as [_ [-> | ->]]. }
  rewrite Hq. unfold Wrappers.select_sql. cbn [Wrappers.truthy orb].
  unfold Wrappers.limit_sql. rewrite str_app_nil_r. done.
Qed.

Lemma query_cohort_agrees_with_builder_witness :
  let cols := ["Study Name"; "Sex"; "Age Scan"] in
  let s := Store "raw" "Study Name" [] [] None in
  let fs := [("Sex", PStr "f"); ("Age Scan", PTuple [PStr ">"; PInt 70])] in
  (Wrappers.study_col cols = Some (_study_col s)
   ∧ forallb Wrappers.plain_predicate fs = true)
  ∧ Wrappers.query_cohort cols "UK Biobank" "raw" (Some fs) None None None
    = Returned
        ("SELECT * FROM raw WHERE "
           +:+ where_sql
                 (_where_parts
                    (filter fs (select_cohort "UK Biobank" (reset s))).2),
         _params (filter fs (select_cohort "UK Biobank" (reset s))).2).
Proof.
  intros cols s fs. split; [by split|].
  refine (proj1 (proj2 (query_cohort_agrees_with_builder cols "UK Biobank"
                          "raw" fs s _ _))); reflexivity.
Defined.

(** X23: a limit of zero is no limit: [query_cohort] with [limit = 0]
    sends the text it sends without a limit, and any other number is
    appended as a [LIMIT] clause. *)
Theorem limit_zero_is_no_limit cols (study_name table : string)
    (filters : option (list (string * pyval)))
    (organs kinds : option (list string)) (z : Z) (c : string) :
  Wrappers.study_col cols = Some c →
  Wrappers.query_cohort cols study_name table filters organs kinds (Some 0%Z)
  = Wrappers.query_cohort cols study_name table filters organs kinds None
  ∧ (z ≠ 0%Z →
     ∃ sql params,
       Wrappers.query_cohort cols study_name table filters organs kinds None
       = Returned (sql, params)
       ∧ Wrappers.query_cohort cols study_name table filters organs kinds
                               (Some z)
         = Returned (sql +:+ " LIMIT " +:+ str_of_Z z, params)).
Proof.
  intros Hc. split; [done|]. intros Hz.
  rewrite !(query_cohort_returned _ _ _ _ _ _ _ c Hc).
  do 2 eexists. split; [done|]. f_equal.
  unfold Wrappers.limit_sql. rewrite (proj2 (Z.eqb_neq z 0) Hz).
  by rewrite str_app_nil_r, !str_app_assoc.
Qed.

Lemma limit_zero_is_no_limit_witness :
  Wrappers.study_col ["Study"; "Age"] = Some "Study"
  ∧ Wrappers.query_cohort ["Study"; "Age"] "UK Biobank" "raw" None None None
                          (Some 0%Z)
    = Wrappers.query_cohort ["Study"; "Age"] "UK Biobank" "raw" None None
                            None None.
Proof.
  split; [reflexivity|].
  refine (proj1 (limit_zero_is_no_limit ["Study"; "Age"] "UK Biobank" "raw"
                   None None None 0%Z "Study" _)).
  reflexivity.
Defined.

(** X24: where [query_cohort] names columns, the builder's selection is
    its column list with the repeats removed: [query_cohort] removes
    none, so the study column comes twice when it passes the token test
    itself. *)
Theorem builder_selection_dedups_wrapper cols
    (organs kinds : option (list string)) (s : store) :
  Wrappers.study_col cols = Some (_study_col s) →
  _select_cols (metrics cols organs kinds s)
  = Some (dedup_first
            (Wrappers.select_cols cols (_study_col s) organs kinds))
  ∧ (matches (tokens organs) (tokens kinds) (_study_col s) = true →
     ¬ NoDup (Wrappers.select_cols cols (_study_col s) organs kinds)).
Proof.
  intros [Hin _]%study_col_cases. split.
  - rewrite metrics_select_cols. unfold Wrappers.select_cols, base_columns.
    by rewrite (proj2 (str_in_true _ _) Hin).
  - intros Hm Hnd. unfold Wrappers.select_cols in Hnd.
    apply NoDup_app in Hnd as (_ & Hdisj & _).
    apply (Hdisj (_study_col s)).
    + assert (Hbase : ∀ cands base,
                _study_col s ∈ base →
                _study_col s ∈ add_id_col cands cols base).
      { induction cands as [|x cands IH]; intros base Hb; [done|].
        cbn [add_id_col].
        destruct (str_in x cols && negb (str_in x base)); [|by apply IH].
        apply elem_of_app. by left. }
      apply Hbase. left.
    + by apply elem_of_filter.
Qed.

Lemma builder_selection_dedups_wrapper_witness :
  let cols := ["Study Name"; "ID"; "Liver Volume"] in
  let s := Store "raw" "Study Name" [] [] None in
  Wrappers.study_col cols = Some (_study_col s)
  ∧ _select_cols (metrics cols (Some ["study"]) None s)
    = Some (dedup_first
              (Wrappers.select_cols cols (_study_col s) (Some ["study"])
                                    None)).
Proof.
  intros cols s. split; [reflexivity|].
  refine (proj1 (builder_selection_dedups_wrapper cols (Some ["study"]) None
                   s _)).
  reflexivity.
Defined.

(** X25: the two detections of the study column do not agree on every
    table.  When [query_cohort] finds a study column the builder finds
    one too, the same one unless the table has both "Study" and
    "Study Name"; then the builder takes "Study" and [query_cohort]
    takes "Study Name".  When [query_cohort] finds none, the builder can
    only find "study", "StudyName" or "Study_Name". *)
Theorem study_column_detections cols (tbl : string) :
  (∀ c, Wrappers.study_col cols = Some c →
        ∃ c', _detect_study_col tbl cols = Returned c'
              ∧ (c' = c ↔ ¬ ("Study" ∈ cols ∧ "Study Name" ∈ cols))
              ∧ ("Study" ∈ cols → "Study Name" ∈ cols
                 → c' = "Study" ∧ c = "Study Name"))
  ∧ (Wrappers.study_col cols = None →
     ∀ c', _detect_study_col tbl cols = Returned c' →
           c' ∈ ["study"; "StudyName"; "Study_Name"]).
Proof.
  unfold Wrappers.study_col, _detect_study_col, STUDY_CANDIDATES.
  cbn [first_in].
  destruct (str_in "Study" cols) eqn:H1;
    destruct (str_in "Study Name" cols) eqn:H2.
  - apply str_in_true in H1, H2.
    split; [|done]. intros c [= <-]. eexists. split; [done|].
    split; [|done]. split; [intros [=]|]. intros H. by destruct H.
  - apply str_in_false in H2.
    split; [|done]. intros c [= <-]. eexists. split; [done|].
    split; [|by intros _ ?]. split; [|done]. intros _ [_ ?]. done.
  - apply str_in_false in H1.
    split; [|done]. intros c [= <-]. eexists. split; [done|].
    split; [|by intros ?]. split; [|done]. intros _ [? _]. done.
  - split; [done|]. intros _ c'.
    destruct (str_in "study" cols); [intros [= <-]; in_literals|].
    destruct (str_in "StudyName" cols); [intros [= <-]; in_literals|].
    destruct (str_in "Study_Name" cols); [intros [= <-]; in_literals|done].
Qed.

Lemma first_in_head (cands cols : list string) :
  first_in cands cols = head (List.filter (λ c, str_in c cols) cands).
Proof.
  induction cands as [|c cands IH]; [done|]. cbn [first_in List.filter].
  by destruct (str_in c cols).
Qed.

(** X26: [ingest.py] and the builder look for the same study columns: the
    script stops with its error exactly on the tables on which the
    builder cannot be made, and otherwise the first column of its view
    is the builder's study column, every column of the view being a
    candidate that the table has. *)
Theorem ingest_matches_builder cols (tbl : string) :
  ((∃ e, Ingest.view_sql cols = Raised e) ↔ (∃ e, init tbl cols = Raised e))
  ∧ (Ingest.study_cols cols = [] ↔ ∀ c, c ∈ STUDY_CANDIDATES → c ∉ cols)
  ∧ (∀ sc rest, Ingest.study_cols cols = sc :: rest →
       init tbl cols = Returned (Store tbl sc [] [] None)
       ∧ ∀ x, x ∈ sc :: rest → x ∈ cols ∧ x ∈ STUDY_CANDIDATES).
Proof.
  assert (Hhead : first_in STUDY_CANDIDATES cols
                  = head (Ingest.study_cols cols)).
  { apply first_in_head. }
  unfold Ingest.view_sql, init, _detect_study_col. rewrite Hhead.
  split; [|split].
  - destruct (Ingest.study_cols cols) as [|sc rest]; cbn [head];
      split; intros [e He]; try done; by eexists.
  - rewrite <- first_in_None, Hhead.
    by destruct (Ingest.study_cols cols).
  - intros sc rest Hsc. rewrite Hsc. cbn [head]. split; [done|].
    intros x Hx. rewrite <- Hsc in Hx. unfold Ingest.study_cols in Hx.
    apply elem_of_filter in Hx as [Hx Hin]. split; [by apply str_in_true|].
    done.
Qed.

End wrappers.
